(** * CI timeline visualizer: a shallow embedding of [scripts/ci/timeline.py]

    The rendering core of the script (duration formatter, bar renderer,
    sparkline renderer, job-name normalizer, single-run and unified-diff
    renderers) is translated function by function, and so are the history
    and comparison renderers and the formatter of the run listing.

    Modelling conventions.
    - A Python [str] is a list of Unicode code points ([pystr]); [len] is the
      list length.  Literals are written as UTF-8 Rocq strings and decoded
      by [u].
    - A [datetime] is an instant, in whole microseconds since the epoch
      (the resolution of Python's [datetime]); [total_seconds()] and
      [timestamp()] divide by 10^6.
    - A Python [float] is an exact rational ([Q]); [int(x)] truncates toward
      zero, [//] and [%] follow Python's floor convention.  The binary64
      rounding of the interpreter is not part of the model.
    - An exception is a [Raise] result. *)

From Stdlib Require Import ZArith QArith Qround Qabs List String Ascii Lia Lqa
  DecimalString Bool Sorted Permutation.
Import ListNotations.
Open Scope Z_scope.

(** ** Python strings *)

Module PyStr.

Definition pystr := list N.

(** UTF-8 decoding of a byte sequence, [need] continuation bytes pending. *)
Fixpoint utf8 (bs : list N) (need : nat) (acc : N) : pystr :=
  match bs with
  | [] => []
  | b :: r =>
      match need with
      | O =>
          if (b <? 128)%N then b :: utf8 r 0 0%N
          else if (b <? 224)%N then utf8 r 1 (b mod 32)%N
          else if (b <? 240)%N then utf8 r 2 (b mod 16)%N
          else utf8 r 3 (b mod 8)%N
      | S O => (acc * 64 + b mod 64)%N :: utf8 r 0 0%N
      | S k => utf8 r k (acc * 64 + b mod 64)%N
      end
  end.

Definition u (s : string) : pystr :=
  utf8 (List.map N_of_ascii (list_ascii_of_string s)) 0 0%N.

(** [len(s)] *)
Definition len (s : pystr) : Z := Z.of_nat (List.length s).

(** [s * n]: a non-positive count gives the empty string. *)
Definition str_mul (s : pystr) (n : Z) : pystr :=
  List.concat (List.repeat s (Z.to_nat n)).

(** [s.ljust(w)], also the format spec [:<w]: never truncates. *)
Definition ljust (s : pystr) (w : Z) : pystr :=
  s ++ str_mul (u " ") (w - len s).

(** The format spec [:>w]. *)
Definition rjust (s : pystr) (w : Z) : pystr :=
  str_mul (u " ") (w - len s) ++ s.

(** The format spec [:^w]: the left padding is the smaller half. *)
Definition center (s : pystr) (w : Z) : pystr :=
  let pad := Z.max 0 (w - len s) in
  str_mul (u " ") (pad / 2) ++ s ++ str_mul (u " ") (pad - pad / 2).

(** [s[:n]] for a non-negative [n]. *)
Definition slice_to (s : pystr) (n : Z) : pystr := List.firstn (Z.to_nat n) s.

(** [sep.join(parts)] *)
Fixpoint join (sep : pystr) (parts : list pystr) : pystr :=
  match parts with
  | [] => []
  | [p] => p
  | p :: rest => p ++ sep ++ join sep rest
  end.

(** The line separator of ["\n".join(lines)]. *)
Definition newline : pystr := [10%N].

(** [len(xs)] for a list. *)
Definition len_list {A} (xs : list A) : Z := Z.of_nat (List.length xs).

(** [str(n)] for an [int]. *)
Definition str_of_int (n : Z) : pystr := u (NilZero.string_of_int (Z.to_int n)).

Fixpoint eqb (a b : pystr) : bool :=
  match a, b with
  | [], [] => true
  | x :: a', y :: b' => (x =? y)%N && eqb a' b'
  | _, _ => false
  end.

(** [a < b] on strings: lexicographic on code points. *)
Fixpoint ltb (a b : pystr) : bool :=
  match a, b with
  | _, [] => false
  | [], _ :: _ => true
  | x :: a', y :: b' => (x <? y)%N || ((x =? y)%N && ltb a' b')
  end.

Fixpoint is_prefix (p s : pystr) : bool :=
  match p, s with
  | [], _ => true
  | x :: p', y :: s' => (x =? y)%N && is_prefix p' s'
  | _ :: _, [] => false
  end.

(** [s.replace(old, "")]: the non-overlapping occurrences of [old], found
    left to right, are dropped.  [skip] counts the characters of the
    occurrence under deletion that are still to be dropped. *)
Fixpoint remove_go (old s : pystr) (skip : nat) : pystr :=
  match s with
  | [] => []
  | c :: r =>
      match skip with
      | S k => remove_go old r k
      | O =>
          if is_prefix old s then remove_go old r (List.length old - 1)
          else c :: remove_go old r 0
      end
  end.

Definition remove (old s : pystr) : pystr :=
  match old with
  | [] => s
  | _ => remove_go old s 0
  end.

(** [s.split(sep)[-1]] for a one-character separator: what follows the last
    occurrence of [sep], the whole string when there is none. *)
Fixpoint after_last (sep : N) (s : pystr) : pystr :=
  match s with
  | [] => []
  | c :: r =>
      if List.existsb (N.eqb sep) r then after_last sep r
      else if (c =? sep)%N then r else s
  end.

(** Python's [str.isspace] code points, the set [str.strip()] removes. *)
Definition is_space (c : N) : bool :=
  ((9 <=? c) && (c <=? 13) || (28 <=? c) && (c <=? 32) || (c =? 133)
   || (c =? 160) || (c =? 5760) || (8192 <=? c) && (c <=? 8202)
   || (c =? 8232) || (c =? 8233) || (c =? 8239) || (c =? 8287)
   || (c =? 12288))%N.

Fixpoint lstrip (s : pystr) : pystr :=
  match s with
  | c :: r => if is_space c then lstrip r else s
  | [] => []
  end.

(** [s.strip()] *)
Definition strip (s : pystr) : pystr := List.rev (lstrip (List.rev (lstrip s))).

End PyStr.
Import PyStr.

(** ** Python floats, as rationals *)

Module PyNum.

Definition ltb (x y : Q) : bool := Qnum x * QDen y <? Qnum y * QDen x.
Definition eqb (x y : Q) : bool := Qeq_bool x y.

(** [int(x)]: truncation toward zero. *)
Definition py_int (x : Q) : Z := Z.quot (Qnum x) (QDen x).

(** [x // y] and [x % y] for a non-zero divisor [y]. *)
Definition floordiv (x y : Q) : Q := inject_Z (Qfloor (x / y)).
Definition pymod (x y : Q) : Q := x - y * inject_Z (Qfloor (x / y)).

(** [sum(xs)]: a left fold from the integer 0. *)
Definition sum (xs : list Q) : Q := List.fold_left Qplus xs 0%Q.

End PyNum.
Import PyNum.

(** ** [format_duration] *)

Definition format_duration (seconds : Q) : pystr :=
  if PyNum.ltb seconds 60 then
    str_of_int (py_int seconds) ++ u "s"
  else if PyNum.ltb seconds 3600 then
    let mins := py_int (floordiv seconds 60) in
    let secs := py_int (pymod seconds 60) in
    str_of_int mins ++ u "m" ++ str_of_int secs ++ u "s"
  else
    let hours := py_int (floordiv seconds 3600) in
    let mins := py_int (floordiv (pymod seconds 3600) 60) in
    str_of_int hours ++ u "h" ++ str_of_int mins ++ u "m".

(** ** Data model *)

(** [datetime]: microseconds since the epoch. *)
Definition datetime := Z.

(** [(a - b).total_seconds()] for the difference [d = a - b]. *)
Definition total_seconds (d : Z) : Q := d # 1000000.

(** [t.timestamp()] *)
Definition timestamp (t : datetime) : Q := t # 1000000.

(** Truthiness of an [Optional[datetime]]: every [datetime] is truthy. *)
Definition truthy {A} (o : option A) : bool :=
  match o with Some _ => true | None => false end.

(** Reading an [Optional[datetime]] attribute where the code has already
    filtered on it. *)
Definition the (o : option datetime) : datetime :=
  match o with Some t => t | None => 0 end.

Module Job.

Record t := mk {
  name : pystr;
  status : pystr;
  conclusion : option pystr;
  created_at : datetime;
  started_at : option datetime;
  completed_at : option datetime
}.

Definition queue_duration_seconds (self : t) : Q :=
  match started_at self with
  | Some s => total_seconds (s - created_at self)
  | None => 0
  end.

Definition run_duration_seconds (self : t) : Q :=
  match started_at self, completed_at self with
  | Some s, Some c => total_seconds (c - s)
  | _, _ => 0
  end.

Definition total_duration_seconds (self : t) : Q :=
  match completed_at self with
  | Some c => total_seconds (c - created_at self)
  | None => 0
  end.

End Job.

Module WorkflowRun.

Record t := mk {
  id : Z;
  name : pystr;
  status : pystr;
  conclusion : option pystr;
  created_at : datetime;
  started_at : option datetime;
  updated_at : datetime;
  jobs : list Job.t
}.

End WorkflowRun.

(** ** Exceptions *)

Inductive exn := ZeroDivisionError | ValueError.

Inductive result (A : Type) :=
| Ok (a : A)
| Raise (e : exn).
Arguments Ok {A} a.
Arguments Raise {A} e.

Definition bind {A B} (m : result A) (k : A -> result B) : result B :=
  match m with
  | Ok a => k a
  | Raise e => Raise e
  end.

Notation "x <- m ;; k" := (bind m (fun x => k))
  (at level 61, m at next level, right associativity).

(** ** Sequences *)

(** [range(n)] *)
Definition range (n : Z) : list Z := List.map Z.of_nat (List.seq 0 (Z.to_nat n)).

(** [min(xs)] and [max(xs)] over a non-empty sequence [x :: xs]. *)
Definition min_of (x : Z) (xs : list Z) : Z := List.fold_left Z.min xs x.
Definition max_of (x : Z) (xs : list Z) : Z := List.fold_left Z.max xs x.

Definition Qmax_of (x : Q) (xs : list Q) : Q :=
  List.fold_left (fun m y => if PyNum.ltb m y then y else m) xs x.

(** [s[i]] as a one-character string, for an index within the string. *)
Definition char_at (s : pystr) (i : Z) : pystr :=
  match List.nth_error s (Z.to_nat i) with
  | Some c => [c]
  | None => []
  end.

(** ** [render_sparkline] *)

Definition SPARK_BLOCKS : pystr := u " ▁▂▃▄▅▆▇█".

Definition both_times (j : Job.t) : bool :=
  truthy (Job.started_at j) && truthy (Job.completed_at j).

(** The inner loop of [render_sparkline]: one pass over [completed_jobs]
    that increments [running_count]. *)
Definition count_running (completed_jobs : list Job.t)
    (bucket_start bucket_end : Q) : Z :=
  List.fold_left
    (fun running_count j =>
       let started_ts := timestamp (the (Job.started_at j)) in
       let completed_ts := timestamp (the (Job.completed_at j)) in
       if PyNum.ltb started_ts bucket_end && PyNum.ltb bucket_start completed_ts
       then running_count + 1 else running_count)
    completed_jobs 0.

Definition render_sparkline (jobs : list Job.t) (width : Z) : result pystr :=
  match jobs with
  | [] => Ok (str_mul (u " ") width)
  | _ =>
    let completed_jobs := List.filter both_times jobs in
    match completed_jobs with
    | [] => Ok (str_mul (u " ") width)
    | j0 :: js =>
      let min_time :=
        min_of (Job.created_at j0) (List.map Job.created_at js) in
      let max_time :=
        max_of (the (Job.completed_at j0))
               (List.map (fun j => the (Job.completed_at j)) js) in
      let total_seconds := total_seconds (max_time - min_time) in
      if PyNum.eqb total_seconds 0 then Ok (str_mul (u "█") width)
      else if width =? 0 then Raise ZeroDivisionError
      else
        let bucket_seconds := (total_seconds / inject_Z width)%Q in
        let max_parallelism := len_list completed_jobs in
        Ok (List.concat (List.map
          (fun i =>
             let bucket_start :=
               (timestamp min_time + inject_Z i * bucket_seconds)%Q in
             let bucket_end := (bucket_start + bucket_seconds)%Q in
             let running_count :=
               count_running completed_jobs bucket_start bucket_end in
             if running_count =? 0 then char_at SPARK_BLOCKS 0
             else
               let level :=
                 Z.min 8 (Z.max 1 (py_int
                   ((inject_Z running_count / inject_Z max_parallelism) * 8)%Q)) in
               char_at SPARK_BLOCKS level)
          (range width)))
    end
  end.

(** ** [render_job_bar] *)

Definition render_job_bar (queue_secs run_secs max_secs : Q) (width : Z) : pystr :=
  if PyNum.eqb max_secs 0 then str_mul (u " ") width
  else
    let total := (queue_secs + run_secs)%Q in
    let total_chars := py_int ((total / max_secs) * inject_Z width)%Q in
    let queue_chars := py_int ((queue_secs / max_secs) * inject_Z width)%Q in
    let run_chars := total_chars - queue_chars in
    let bar := str_mul (u "░") queue_chars ++ str_mul (u "█") run_chars in
    ljust bar width.

(** ** [normalize_job_name] *)

Definition normalize_job_name (name : pystr) : pystr :=
  let short := strip (after_last 47%N name) in
  let short := remove (u ")") (remove (u "build (") short) in
  let short := remove (u "ubuntu-24.04, ") (remove (u "ubuntu-22.04, ") short) in
  let short := remove (u "macos-15, ") (remove (u "macos-14, ") short) in
  let short := remove (u "windows-2025, ") (remove (u "windows-2022, ") short) in
  short.

(** ** Sorting and selection *)

(** [sorted(xs, key=key, reverse=True)]: stable, largest key first. *)
Fixpoint insert_desc {A} (key : A -> Q) (x : A) (l : list A) : list A :=
  match l with
  | [] => [x]
  | y :: l' =>
      if PyNum.ltb (key x) (key y) then y :: insert_desc key x l'
      else x :: l
  end.

Definition sorted_desc {A} (key : A -> Q) (xs : list A) : list A :=
  List.fold_right (insert_desc key) [] xs.

(** [max(x :: xs, key=key)]: the first element with the greatest key. *)
Definition max_by {A} (key : A -> Z) (x : A) (xs : list A) : A :=
  List.fold_left (fun m y => if key m <? key y then y else m) xs x.

(** [sorted(set(xs))] on strings: ascending, duplicates merged. *)
Fixpoint insert_name (x : pystr) (l : list pystr) : list pystr :=
  match l with
  | [] => [x]
  | y :: l' =>
      if PyStr.ltb x y then x :: l
      else if PyStr.eqb x y then l
      else y :: insert_name x l'
  end.

Definition sorted_set (xs : list pystr) : list pystr :=
  List.fold_right insert_name [] xs.

(** ** [render_single_run] *)

Definition job_row (max_duration : Q) (bar_width name_width : Z) (j : Job.t)
  : pystr :=
  let short_name := slice_to (normalize_job_name (Job.name j)) (name_width - 2) in
  let bar := render_job_bar (Job.queue_duration_seconds j)
               (Job.run_duration_seconds j) max_duration bar_width in
  let queue := format_duration (Job.queue_duration_seconds j) in
  let run_time := format_duration (Job.run_duration_seconds j) in
  let total := format_duration (Job.total_duration_seconds j) in
  ljust short_name name_width ++ u " " ++ bar ++ u "  " ++ rjust queue 7
    ++ u " " ++ rjust run_time 7 ++ u " " ++ rjust total 7.

(** [x or default] on an [Optional[str]]: [None] and the empty string are
    falsy. *)
Definition or_str (x : option pystr) (default : pystr) : pystr :=
  match x with
  | Some (c :: r) => c :: r
  | _ => default
  end.

Definition render_single_run (run : WorkflowRun.t) (width : Z) : result pystr :=
  match WorkflowRun.jobs run with
  | [] => Ok (u "No jobs found")
  | _ =>
    match List.filter both_times (WorkflowRun.jobs run) with
    | [] => Ok (u "No completed jobs with timing info")
    | j0 :: js =>
      let min_time :=
        min_of (Job.created_at j0) (List.map Job.created_at js) in
      let max_time :=
        max_of (the (Job.completed_at j0))
               (List.map (fun j => the (Job.completed_at j)) js) in
      let total_seconds := total_seconds (max_time - min_time) in
      if PyNum.eqb total_seconds 0 then Ok (u "All jobs completed instantly")
      else
        match sorted_desc Job.total_duration_seconds (j0 :: js) with
        | [] => Raise ValueError
        | s0 :: ss =>
          let jobs := s0 :: ss in
          let lines :=
            [ str_mul (u "=") width;
              u "Workflow: " ++ WorkflowRun.name run ++ u " (Run #"
                ++ str_of_int (WorkflowRun.id run) ++ u ")";
              u "Status: " ++ WorkflowRun.status run ++ u " / "
                ++ or_str (WorkflowRun.conclusion run) (u "in progress");
              str_mul (u "=") width;
              [] ] in
          let max_duration :=
            Qmax_of (Job.total_duration_seconds s0)
                    (List.map Job.total_duration_seconds ss) in
          let bar_width := 20 in
          let name_width := 40 in
          let lines := lines ++
            [ ljust (u "Job") name_width ++ u " "
                ++ ljust (u "Timeline") (bar_width + 2) ++ u " "
                ++ rjust (u "Queue") 7 ++ u " " ++ rjust (u "Run") 7 ++ u " "
                ++ rjust (u "Total") 7;
              str_mul (u "-") width ] in
          let lines := lines ++
            List.map (job_row max_duration bar_width name_width) jobs in
          let lines := lines ++ [ str_mul (u "-") width ] in
          let total_queue := sum (List.map Job.queue_duration_seconds jobs) in
          let total_run := sum (List.map Job.run_duration_seconds jobs) in
          let max_queue :=
            Qmax_of (Job.queue_duration_seconds s0)
                    (List.map Job.queue_duration_seconds ss) in
          let lines := lines ++
            [ [];
              u "Wall clock: " ++ rjust (format_duration total_seconds) 10
                ++ u "    Sum of run times: "
                ++ rjust (format_duration total_run) 10;
              u "Max queue:  " ++ rjust (format_duration max_queue) 10
                ++ u "    Sum of queue times: "
                ++ rjust (format_duration total_queue) 10 ] in
          sparkline <- render_sparkline jobs 50 ;;
          let lines := lines ++
            [ [];
              u "Activity:   " ++ sparkline;
              u "            " ++ center (u "0") 10
                ++ center (format_duration (total_seconds / 2)) 30
                ++ rjust (format_duration total_seconds) 10 ] in
          let last_job := max_by (fun j => the (Job.completed_at j)) s0 ss in
          let lines := lines ++
            [ [];
              u "Critical path: " ++ normalize_job_name (Job.name last_job)
                ++ u " (queue "
                ++ format_duration (Job.queue_duration_seconds last_job)
                ++ u ", run "
                ++ format_duration (Job.run_duration_seconds last_job)
                ++ u ")" ] in
          let lines := lines ++ [ []; u "Legend: █ running  ░ queued" ] in
          Ok (join newline lines)
        end
    end
  end.

(** ** [render_unified_diff] *)

(** A [dict] from normalized names to jobs, in insertion order: assigning
    to a key already present replaces its value and keeps its position. *)
Definition dict := list (pystr * Job.t).

Fixpoint dict_set (d : dict) (k : pystr) (v : Job.t) : dict :=
  match d with
  | [] => [(k, v)]
  | (k', v') :: d' =>
      if PyStr.eqb k' k then (k', v) :: d' else (k', v') :: dict_set d' k v
  end.

Fixpoint dict_get (d : dict) (k : pystr) : option Job.t :=
  match d with
  | [] => None
  | (k', v') :: d' => if PyStr.eqb k' k then Some v' else dict_get d' k
  end.

Definition keys (d : dict) : list pystr := List.map fst d.
Definition values (d : dict) : list Job.t := List.map snd d.

(** [{normalize_job_name(j.name): j for j in jobs if j.completed_at}] *)
Definition jobs_by_name (jobs : list Job.t) : dict :=
  List.fold_left
    (fun d j => dict_set d (normalize_job_name (Job.name j)) j)
    (List.filter (fun j => truthy (Job.completed_at j)) jobs) [].

(** [sorted(set(jobs1.keys()) | set(jobs2.keys()))] *)
Definition all_job_names (jobs1 jobs2 : dict) : list pystr :=
  sorted_set (keys jobs1 ++ keys jobs2).

(** The durations collected for the common bar scale. *)
Definition all_durations (jobs1 jobs2 : dict) (names : list pystr) : list Q :=
  List.flat_map
    (fun name =>
       (match dict_get jobs1 name with
        | Some j => [Job.total_duration_seconds j]
        | None => []
        end) ++
       (match dict_get jobs2 name with
        | Some j => [Job.total_duration_seconds j]
        | None => []
        end))
    names.

(** The delta tag of a job present in both runs. *)
Definition delta_str (run_delta : Q) : pystr :=
  if PyNum.ltb (Qabs run_delta) 60 then u "~same"
  else if PyNum.ltb 0 run_delta then u "+" ++ format_duration run_delta
  else u "-" ++ format_duration (- run_delta).

(** The state the job loop threads through its iterations. *)
Record diff_state := mk_state {
  lines : list pystr;
  total_run_delta : Q;
  total_queue_delta : Q
}.

(** The bar and the total time of one job, as both sides of a row show
    them. *)
Definition side (max_duration : Q) (bar_width : Z) (j : Job.t) : pystr * pystr :=
  (render_job_bar (Job.queue_duration_seconds j) (Job.run_duration_seconds j)
     max_duration bar_width,
   format_duration (Job.total_duration_seconds j)).

(** One iteration of [for name in all_job_names]. *)
Definition diff_step (jobs1 jobs2 : dict) (max_duration : Q)
    (bar_width name_width : Z) (st : diff_state) (name : pystr) : diff_state :=
  let j1 := dict_get jobs1 name in
  let j2 := dict_get jobs2 name in
  let short_name := slice_to name (name_width - 2) in
  match j1, j2 with
  | Some j1, Some j2 =>
      let '(bar1, time1) := side max_duration bar_width j1 in
      let '(bar2, time2) := side max_duration bar_width j2 in
      let run_delta :=
        (Job.run_duration_seconds j2 - Job.run_duration_seconds j1)%Q in
      mk_state
        (lines st ++
           [ ljust short_name name_width ++ u " " ++ bar1 ++ u " "
               ++ rjust time1 6 ++ u "  " ++ bar2 ++ u " " ++ rjust time2 6
               ++ u "  " ++ rjust (delta_str run_delta) 10 ])
        (total_run_delta st + run_delta)%Q
        (total_queue_delta st
           + (Job.queue_duration_seconds j2 - Job.queue_duration_seconds j1))%Q
  | Some j1, None =>
      let '(bar1, time1) := side max_duration bar_width j1 in
      mk_state
        (lines st ++
           [ ljust short_name name_width ++ u " " ++ bar1 ++ u " "
               ++ rjust time1 6 ++ u "  " ++ ljust (u "(missing)") (bar_width + 7) ])
        (total_run_delta st) (total_queue_delta st)
  | None, Some j2 =>
      let '(bar2, time2) := side max_duration bar_width j2 in
      mk_state
        (lines st ++
           [ ljust short_name name_width ++ u " "
               ++ ljust (u "(missing)") (bar_width + 7) ++ u "  " ++ bar2
               ++ u " " ++ rjust time2 6 ])
        (total_run_delta st) (total_queue_delta st)
  | None, None => st
  end.

Definition get_wall_time (run : WorkflowRun.t) : Q :=
  match List.filter (fun j => truthy (Job.completed_at j)) (WorkflowRun.jobs run) with
  | [] => 0
  | j0 :: js =>
      total_seconds
        (max_of (the (Job.completed_at j0))
                (List.map (fun j => the (Job.completed_at j)) js)
         - min_of (Job.created_at j0) (List.map Job.created_at js))
  end.

(** The delta column of the three aggregate rows:
    [{'+' if d > 0 else ''}{format_duration(abs(d)):>10}]. *)
Definition aggregate_delta (d : Q) : pystr :=
  (if PyNum.ltb 0 d then u "+" else []) ++ rjust (format_duration (Qabs d)) 10.

Definition aggregate_row (label : pystr) (v1 v2 d : Q)
    (bar_width name_width : Z) : pystr :=
  ljust label name_width ++ u " " ++ rjust (format_duration v1) (bar_width + 7)
    ++ u "  " ++ rjust (format_duration v2) (bar_width + 7) ++ u "  "
    ++ aggregate_delta d.

(** The lines from ["KEY INSIGHT:"] to the last conditional append. *)
Definition key_insight (wall_delta total_run_delta total_queue_delta : Q)
  : list pystr :=
  [ u "KEY INSIGHT:" ] ++
  (if PyNum.ltb total_run_delta (-60) then
     [ u "  Run 2 saved " ++ format_duration (- total_run_delta)
         ++ u " in actual build time across all jobs." ]
   else if PyNum.ltb 60 total_run_delta then
     [ u "  Run 2 spent " ++ format_duration total_run_delta
         ++ u " MORE in actual build time across all jobs." ]
   else [ u "  Actual build times are roughly the same." ]) ++
  (if PyNum.ltb 60 total_queue_delta then
     [ u "  BUT Run 2 had " ++ format_duration total_queue_delta
         ++ u " MORE queue wait time." ]
   else if PyNum.ltb total_queue_delta (-60) then
     [ u "  AND Run 2 had " ++ format_duration (- total_queue_delta)
         ++ u " LESS queue wait time." ]
   else []) ++
  (if PyNum.ltb 0 wall_delta && PyNum.ltb total_run_delta 0 then
     [ []; u "  Despite faster builds, wall clock time increased due to runner queue delays!" ]
   else if PyNum.ltb wall_delta 0 && PyNum.ltb total_run_delta 0 then
     [ []; u "  Build time savings translated to faster wall clock time." ]
   else []).

(** The list [lines] as it stands when the function returns. *)
Definition unified_diff_lines (run1 run2 : WorkflowRun.t) (width : Z)
  : list pystr :=
  let banner :=
    [ str_mul (u "=") width;
      u "COMPARING: Run #" ++ str_of_int (WorkflowRun.id run1) ++ u " vs #"
        ++ str_of_int (WorkflowRun.id run2);
      str_mul (u "=") width;
      [] ] in
  let jobs1 := jobs_by_name (WorkflowRun.jobs run1) in
  let jobs2 := jobs_by_name (WorkflowRun.jobs run2) in
  let all_job_names := all_job_names jobs1 jobs2 in
  let max_duration :=
    match all_durations jobs1 jobs2 all_job_names with
    | [] => 1%Q
    | d :: ds => Qmax_of d ds
    end in
  let bar_width := 16 in
  let name_width := 28 in
  let header := banner ++
    [ ljust (u "Job") name_width ++ u " " ++ ljust (u "Run 1") (bar_width + 8)
        ++ u " " ++ ljust (u "Run 2") (bar_width + 8) ++ u " "
        ++ rjust (u "Delta") 10;
      str_mul (u "-") width ] in
  let st :=
    List.fold_left (diff_step jobs1 jobs2 max_duration bar_width name_width)
      all_job_names (mk_state header 0 0) in
  let table := lines st ++ [ str_mul (u "-") width ] in
  let wall1 := get_wall_time run1 in
  let wall2 := get_wall_time run2 in
  let wall_delta := (wall2 - wall1)%Q in
  let sum_run1 := sum (List.map Job.run_duration_seconds (values jobs1)) in
  let sum_run2 := sum (List.map Job.run_duration_seconds (values jobs2)) in
  let sum_queue1 := sum (List.map Job.queue_duration_seconds (values jobs1)) in
  let sum_queue2 := sum (List.map Job.queue_duration_seconds (values jobs2)) in
  let summary := table ++
    [ [];
      aggregate_row (u "Wall clock:") wall1 wall2 wall_delta bar_width name_width;
      aggregate_row (u "Sum of run times:") sum_run1 sum_run2
        (total_run_delta st) bar_width name_width;
      aggregate_row (u "Sum of queue times:") sum_queue1 sum_queue2
        (total_queue_delta st) bar_width name_width ] in
  let insight := summary ++ [ []; str_mul (u "=") width ]
    ++ key_insight wall_delta (total_run_delta st) (total_queue_delta st) in
  insight ++ [ str_mul (u "=") width; []; u "Legend: █ running  ░ queued" ].

Definition render_unified_diff (run1 run2 : WorkflowRun.t) (width : Z) : pystr :=
  join newline (unified_diff_lines run1 run2 width).

(** * Specification-level definitions

    What the statements below compare the code with: the sparkline and the
    normalizer as the specification words them, the rows and lines of the
    diff by name, and the concrete runs the examples use. *)

(** [clamp(x, lo, hi)] *)
Definition clamp (x lo hi : Z) : Z := Z.min hi (Z.max lo x).

(** Bucket [i] of the [width] equal-length buckets of [span], counted from
    [min_time]: it starts [i] bucket lengths in and ends [i + 1] in. *)
Definition bucket_start_spec (min_time span : Q) (width i : Z) : Q :=
  (min_time + inject_Z i * (span / inject_Z width))%Q.

Definition bucket_end_spec (min_time span : Q) (width i : Z) : Q :=
  (min_time + inject_Z (i + 1) * (span / inject_Z width))%Q.

(** [started < bucket_end AND completed > bucket_start] *)
Definition overlaps (bucket_start bucket_end : Q) (j : Job.t) : bool :=
  PyNum.ltb (timestamp (the (Job.started_at j))) bucket_end
  && PyNum.ltb bucket_start (timestamp (the (Job.completed_at j))).

(** The number of filtered jobs that overlap a bucket. *)
Definition overlap_count (filtered : list Job.t) (bucket_start bucket_end : Q) : Z :=
  len_list (List.filter (overlaps bucket_start bucket_end) filtered).

(** Count to glyph: blank for 0, else level
    [clamp (floor (count / total * 8)) 1 8], in integer arithmetic. *)
Definition density_glyph (count total : Z) : N :=
  if count =? 0 then 32%N
  else List.nth (Z.to_nat (clamp (8 * count / total) 1 8)) SPARK_BLOCKS 32%N.

(** [min(created_at)] and [max(completed_at)] over a non-empty filtered set. *)
Definition earliest (j0 : Job.t) (js : list Job.t) : datetime :=
  min_of (Job.created_at j0) (List.map Job.created_at js).
Definition latest (j0 : Job.t) (js : list Job.t) : datetime :=
  max_of (the (Job.completed_at j0))
         (List.map (fun j => the (Job.completed_at j)) js).

(** Lexicographic order on strings, as a relation. *)
Definition str_lt (a b : pystr) : Prop := PyStr.ltb a b = true.

(** The lines one iteration of the job loop appends for [name]. *)
Definition diff_rows (jobs1 jobs2 : dict) (max_duration : Q)
    (bar_width name_width : Z) (name : pystr) : list pystr :=
  lines (diff_step jobs1 jobs2 max_duration bar_width name_width
           (mk_state [] 0 0) name).

(** The instant [n] seconds after the epoch. *)
Definition seconds (n : Z) : datetime := n * 1000000.

(** A completed job created at the epoch, queued for [queue] seconds and
    run for [run] seconds; a run made of such jobs. *)
Definition scenario_job (name : string) (queue run : Z) : Job.t :=
  Job.mk (u name) (u "completed") (Some (u "success"))
    0 (Some (seconds queue)) (Some (seconds (queue + run))).

Definition scenario_run (id : Z) (jobs : list Job.t) : WorkflowRun.t :=
  WorkflowRun.mk id (u "CI") (u "completed") (Some (u "success"))
    0 (Some 0) 0 jobs.

(** The end-to-end scenario of the specification: ["build"] with queue 30s
    and run 120s, then with queue 30s and run 50s. *)
Definition baseline : WorkflowRun.t := scenario_run 1 [scenario_job "build" 30 120].
Definition comparison : WorkflowRun.t := scenario_run 2 [scenario_job "build" 30 50].

(** The scale of the bars of a diff: the greatest total duration among the
    jobs of both mappings, 1 when there is none. *)
Definition bar_scale (jobs1 jobs2 : dict) : Q :=
  match all_durations jobs1 jobs2 (all_job_names jobs1 jobs2) with
  | [] => 1%Q
  | d :: ds => Qmax_of d ds
  end.

(** The row of a job present in both runs. *)
Definition matched_row (m : Q) (name : pystr) (j1 j2 : Job.t) : pystr :=
  ljust (slice_to name 26) 28 ++ u " "
    ++ render_job_bar (Job.queue_duration_seconds j1)
         (Job.run_duration_seconds j1) m 16
    ++ u " " ++ rjust (format_duration (Job.total_duration_seconds j1)) 6
    ++ u "  "
    ++ render_job_bar (Job.queue_duration_seconds j2)
         (Job.run_duration_seconds j2) m 16
    ++ u " " ++ rjust (format_duration (Job.total_duration_seconds j2)) 6
    ++ u "  "
    ++ rjust (delta_str (Job.run_duration_seconds j2 - Job.run_duration_seconds j1)) 10.

(** The row of a job found in one run only. *)
Definition only_run1_row (m : Q) (name : pystr) (j1 : Job.t) : pystr :=
  ljust (slice_to name 26) 28 ++ u " "
    ++ render_job_bar (Job.queue_duration_seconds j1)
         (Job.run_duration_seconds j1) m 16
    ++ u " " ++ rjust (format_duration (Job.total_duration_seconds j1)) 6
    ++ u "  " ++ ljust (u "(missing)") 23.

Definition only_run2_row (m : Q) (name : pystr) (j2 : Job.t) : pystr :=
  ljust (slice_to name 26) 28 ++ u " " ++ ljust (u "(missing)") 23 ++ u "  "
    ++ render_job_bar (Job.queue_duration_seconds j2)
         (Job.run_duration_seconds j2) m 16
    ++ u " " ++ rjust (format_duration (Job.total_duration_seconds j2)) 6.

(** Two jobs of one run that normalize to ["test"], and a job per side that
    the other run lacks. *)
Definition collide_run1 : WorkflowRun.t :=
  scenario_run 1 [ scenario_job "build (ubuntu-22.04, test)" 10 100;
                   scenario_job "matrix / test" 20 40;
                   scenario_job "lint" 5 30 ].
Definition collide_run2 : WorkflowRun.t :=
  scenario_run 2 [ scenario_job "docs" 5 60 ].

(** The per-job deltas of a duration [f], over the names found in both
    mappings, in iteration order. *)
Definition matched_deltas (f : Job.t -> Q) (jobs1 jobs2 : dict)
    (names : list pystr) : list Q :=
  List.flat_map
    (fun name =>
       match dict_get jobs1 name, dict_get jobs2 name with
       | Some j1, Some j2 => [(f j2 - f j1)%Q]
       | _, _ => []
       end)
    names.

(** The lines of the key-insight block. *)
Definition line_saved (d : Q) : pystr :=
  u "  Run 2 saved " ++ format_duration (- d)
    ++ u " in actual build time across all jobs.".
Definition line_spent (d : Q) : pystr :=
  u "  Run 2 spent " ++ format_duration d
    ++ u " MORE in actual build time across all jobs.".
Definition line_same : pystr := u "  Actual build times are roughly the same.".
Definition line_more_queue (d : Q) : pystr :=
  u "  BUT Run 2 had " ++ format_duration d ++ u " MORE queue wait time.".
Definition line_less_queue (d : Q) : pystr :=
  u "  AND Run 2 had " ++ format_duration (- d) ++ u " LESS queue wait time.".
Definition line_masked : pystr :=
  u "  Despite faster builds, wall clock time increased due to runner queue delays!".
Definition line_end_to_end : pystr :=
  u "  Build time savings translated to faster wall clock time.".



(** The three parts of the block after its title. *)
Definition build_line (d : Q) : pystr :=
  if PyNum.ltb d (-60) then line_saved d
  else if PyNum.ltb 60 d then line_spent d
  else line_same.

Definition queue_lines (d : Q) : list pystr :=
  if PyNum.ltb 60 d then [line_more_queue d]
  else if PyNum.ltb d (-60) then [line_less_queue d]
  else [].

Definition cross_lines (wall_delta total_run_delta : Q) : list pystr :=
  if PyNum.ltb 0 wall_delta && PyNum.ltb total_run_delta 0
  then [[]; line_masked]
  else if PyNum.ltb wall_delta 0 && PyNum.ltb total_run_delta 0
  then [[]; line_end_to_end]
  else [].

(** A run whose jobs all start and complete at the instant of creation. *)
Definition instant_run : WorkflowRun.t :=
  scenario_run 7 [ scenario_job "build" 0 0; scenario_job "lint" 0 0 ].

(** The decorations the normalizer deletes, in the order of the calls. *)
Definition decorations : list pystr :=
  [ u "build ("; u ")";
    u "ubuntu-22.04, "; u "ubuntu-24.04, ";
    u "macos-14, "; u "macos-15, ";
    u "windows-2022, "; u "windows-2025, " ].

(** [old] occurs somewhere in [s]. *)
Fixpoint occurs (old s : pystr) : bool :=
  match s with
  | [] => false
  | _ :: r => is_prefix old s || occurs old r
  end.

(** The normalizer as the specification words it: only a [")"] that ends
    the name is dropped. *)
Definition strip_trailing (c : N) (s : pystr) : pystr :=
  match List.rev s with
  | x :: r => if (x =? c)%N then List.rev r else s
  | [] => s
  end.

Definition normalize_job_name_spec (name : pystr) : pystr :=
  let short := strip (after_last 47%N name) in
  let short := strip_trailing 41%N (remove (u "build (") short) in
  List.fold_left (fun s old => remove old s)
    [ u "ubuntu-22.04, "; u "ubuntu-24.04, "; u "macos-14, "; u "macos-15, ";
      u "windows-2022, "; u "windows-2025, " ] short.

(** Two overlapping jobs over a span of 100 seconds. *)
Definition spark_jobs : list Job.t :=
  [ scenario_job "a" 10 40; scenario_job "b" 20 80 ].

(** * The other renderers of the script *)

(** ** [render_history] *)

(** [sorted(xs, key=key)] on integer keys: stable, smallest key first. *)
Fixpoint insert_asc {A} (key : A -> Z) (x : A) (l : list A) : list A :=
  match l with
  | [] => [x]
  | y :: l' =>
      if key y <? key x then y :: insert_asc key x l'
      else x :: l
  end.

Definition sorted_asc {A} (key : A -> Z) (xs : list A) : list A :=
  List.fold_right (insert_asc key) [] xs.

(** The jobs of a run that [render_history], [render_comparison] and
    [get_wall_time] keep: [[j for j in run.jobs if j.completed_at]]. *)
Definition completed (jobs : list Job.t) : list Job.t :=
  List.filter (fun j => truthy (Job.completed_at j)) jobs.

(** One iteration of [for run in runs] in [render_history]: the two
    [continue] guards, then the row of the run. *)
Definition history_step (lines : list pystr) (run : WorkflowRun.t)
  : result (list pystr) :=
  match WorkflowRun.jobs run with
  | [] => Ok lines
  | _ =>
    match completed (WorkflowRun.jobs run) with
    | [] => Ok lines
    | j0 :: js =>
      let jobs := j0 :: js in
      let min_t := min_of (Job.created_at j0) (List.map Job.created_at js) in
      let max_t :=
        max_of (the (Job.completed_at j0))
               (List.map (fun j => the (Job.completed_at j)) js) in
      let wall_time := total_seconds (max_t - min_t) in
      let build_time := sum (List.map Job.run_duration_seconds jobs) in
      let queue_time := sum (List.map Job.queue_duration_seconds jobs) in
      sparkline <- render_sparkline jobs 40 ;;
      Ok (lines ++
            [ ljust (str_of_int (WorkflowRun.id run)) 12 ++ u " | "
                ++ rjust (format_duration wall_time) 7 ++ u " | "
                ++ rjust (format_duration build_time) 7 ++ u " | "
                ++ rjust (format_duration queue_time) 7 ++ u " | "
                ++ sparkline ])
    end
  end.

Definition history_lines (runs : list WorkflowRun.t) (width : Z)
  : result (list pystr) :=
  let lines :=
    [ str_mul (u "=") width;
      u "RUN HISTORY (oldest to newest)";
      str_mul (u "=") width;
      [] ] in
  let runs := sorted_asc WorkflowRun.created_at runs in
  let lines := lines ++
    [ ljust (u "Run ID") 12 ++ u " | " ++ rjust (u "Wall") 7 ++ u " | "
        ++ rjust (u "Build") 7 ++ u " | " ++ rjust (u "Queue") 7
        ++ u " | Activity";
      str_mul (u "-") width ] in
  lines <- List.fold_left
             (fun acc run => lines <- acc ;; history_step lines run)
             runs (Ok lines) ;;
  Ok (lines ++
        [ str_mul (u "-") width;
          [];
          u "Activity: Height shows parallel job count over time (▁▂▃▄▅▆▇█)";
          u "          Low blocks at start = queue delay; sustained height = good parallelism" ]).

Definition render_history (runs : list WorkflowRun.t) (width : Z)
  : result pystr :=
  lines <- history_lines runs width ;;
  Ok (join newline lines).

(** ** [render_comparison] *)

(** [by_workflow.setdefault(name, []).append(run)] on an insertion-ordered
    dictionary of lists. *)
Fixpoint group_add (groups : list (pystr * list WorkflowRun.t))
    (name : pystr) (run : WorkflowRun.t) : list (pystr * list WorkflowRun.t) :=
  match groups with
  | [] => [(name, [run])]
  | (k, rs) :: g' =>
      if PyStr.eqb k name then (k, rs ++ [run]) :: g'
      else (k, rs) :: group_add g' name run
  end.

Definition by_workflow (runs : list WorkflowRun.t)
  : list (pystr * list WorkflowRun.t) :=
  List.fold_left (fun g run => group_add g (WorkflowRun.name run) run) runs [].

(** The line of one run, none when it has no completed job. *)
Definition comparison_row (run : WorkflowRun.t) : list pystr :=
  match WorkflowRun.jobs run with
  | [] => []
  | _ =>
    match completed (WorkflowRun.jobs run) with
    | [] => []
    | j0 :: js =>
      let min_time := min_of (Job.created_at j0) (List.map Job.created_at js) in
      let max_time :=
        max_of (the (Job.completed_at j0))
               (List.map (fun j => the (Job.completed_at j)) js) in
      let total := total_seconds (max_time - min_time) in
      let max_queue :=
        Qmax_of (Job.queue_duration_seconds j0)
                (List.map Job.queue_duration_seconds js) in
      [ u "  Run #" ++ str_of_int (WorkflowRun.id run) ++ u ": "
          ++ format_duration total ++ u " total, "
          ++ format_duration max_queue ++ u " max queue" ]
    end
  end.

Definition comparison_lines (runs : list WorkflowRun.t) (width : Z)
  : list pystr :=
  let lines :=
    [ str_mul (u "=") width;
      u "WORKFLOW RUN COMPARISON";
      str_mul (u "=") width ] in
  lines ++
  List.flat_map
    (fun '(workflow_name, workflow_runs) =>
       [ []; u "Workflow: " ++ workflow_name; str_mul (u "-") 60 ]
       ++ List.flat_map comparison_row workflow_runs)
    (by_workflow runs).

Definition render_comparison (runs : list WorkflowRun.t) (width : Z) : pystr :=
  join newline (comparison_lines runs width).

(** ** [list_runs] *)

(** The fields [list_runs] reads from a run of the API's JSON listing. *)
Module RunData.

Record t := mk {
  id : Z;
  name : pystr;
  status : pystr;
  conclusion : option pystr;
  created_at : pystr
}.

End RunData.

(** [s.replace(old, new)] for one-character [old] and [new]. *)
Definition replace_char (old new : N) (s : pystr) : pystr :=
  List.map (fun c => if (c =? old)%N then new else c) s.

Definition list_row (run : RunData.t) : pystr :=
  let run_id := RunData.id run in
  let workflow := slice_to (RunData.name run) 38 in
  let status := or_str (RunData.conclusion run) (RunData.status run) in
  let created := replace_char 84 32 (slice_to (RunData.created_at run) 19) in
  ljust (str_of_int run_id) 12 ++ u " " ++ ljust workflow 40 ++ u " "
    ++ ljust status 12 ++ u " " ++ ljust created 20.

Definition list_runs (runs_data : list RunData.t) (repo : pystr) : pystr :=
  match runs_data with
  | [] => u "No runs found"
  | _ =>
    let lines :=
      [ ljust (u "Run ID") 12 ++ u " " ++ ljust (u "Workflow") 40 ++ u " "
          ++ ljust (u "Status") 12 ++ u " " ++ ljust (u "Created") 20;
        str_mul (u "-") 90 ] in
    let lines := lines ++ List.map list_row runs_data in
    let lines := lines ++
      [ str_mul (u "-") 90;
        [];
        u "Use these run IDs with:";
        u "  ./timeline.py <run_id> --repo " ++ repo;
        u "  ./timeline.py <run1> --diff <run2> --repo " ++ repo;
        u "  ./timeline.py --history <run1> <run2> ... --repo " ++ repo ] in
    join newline lines
  end.

(** * Further specification-level definitions *)

(** An ASCII digit, a unit letter of [format_duration]. *)
Definition is_digit (c : N) : Prop := (48 <= c <= 57)%N.
Definition is_unit (c : N) : Prop := c = 104%N \/ c = 109%N \/ c = 115%N.

(** Timestamps in order: created, then started, then completed. *)
Definition monotone (j : Job.t) : Prop :=
  match Job.started_at j, Job.completed_at j with
  | Some s, Some c => Job.created_at j <= s /\ s <= c
  | Some s, None => Job.created_at j <= s
  | None, Some c => Job.created_at j <= c
  | None, None => True
  end.

(** [groups.get(name)] on the dictionary of [render_comparison]. *)
Fixpoint group_get (groups : list (pystr * list WorkflowRun.t)) (name : pystr)
  : option (list WorkflowRun.t) :=
  match groups with
  | [] => None
  | (k, rs) :: g' => if PyStr.eqb k name then Some rs else group_get g' name
  end.

(** A run that [render_history] gives a row: it has a completed job. *)
Definition has_completed (run : WorkflowRun.t) : bool :=
  match completed (WorkflowRun.jobs run) with
  | [] => false
  | _ :: _ => true
  end.

(** The row [render_history] appends for a run: what one iteration of its
    loop adds to an empty list. *)
Definition history_row (run : WorkflowRun.t) : list pystr :=
  match history_step [] run with
  | Ok row => row
  | Raise _ => []
  end.

(** * Lemmas and theorems *)

(** ** Comparisons, truncation and floor on rationals *)

Lemma ltb_spec (x y : Q) : PyNum.ltb x y = true <-> (x < y)%Q.
Proof. unfold PyNum.ltb, Qlt. apply Z.ltb_lt. Qed.

Lemma ltb_false (x y : Q) : PyNum.ltb x y = false <-> (y <= x)%Q.
Proof. unfold PyNum.ltb, Qle. rewrite Z.ltb_ge. reflexivity. Qed.

Lemma eqb_spec (x y : Q) : PyNum.eqb x y = true <-> (x == y)%Q.
Proof. apply Qeq_bool_iff. Qed.

Lemma py_int_floor (x : Q) : (0 <= x)%Q -> py_int x = Qfloor x.
Proof.
  destruct x as [n d]. unfold Qle, py_int, Qfloor. simpl. intros H.
  apply Z.quot_div_nonneg; lia.
Qed.

Lemma Qfloor_unique (x : Q) (z : Z) :
  (inject_Z z <= x)%Q -> (x < inject_Z (z + 1))%Q -> Qfloor x = z.
Proof.
  intros H1 H2.
  pose proof (Qfloor_le x) as F1. pose proof (Qlt_floor x) as F2.
  assert (A : (inject_Z z < inject_Z (Qfloor x + 1))%Q) by (eapply Qle_lt_trans; eauto).
  assert (B : (inject_Z (Qfloor x) < inject_Z (z + 1))%Q) by (eapply Qle_lt_trans; eauto).
  rewrite <- Zlt_Qlt in A, B. lia.
Qed.

Lemma Qfloor_div_Z (x : Q) (k : positive) :
  Qfloor (x / inject_Z (Zpos k)) = Qfloor x / Zpos k.
Proof.
  destruct x as [n d]. unfold Qdiv, Qinv, Qmult, inject_Z, Qfloor. simpl.
  rewrite Z.mul_1_r. rewrite Pos2Z.inj_mul. rewrite Z.div_div; lia.
Qed.

Lemma Qfloor_sub_Z (x : Q) (z : Z) :
  Qfloor (x - inject_Z z) = Qfloor x - z.
Proof.
  apply Qfloor_unique.
  - unfold Z.sub. rewrite inject_Z_plus, inject_Z_opp.
    pose proof (Qfloor_le x). lra.
  - replace (Qfloor x - z + 1) with ((Qfloor x + 1) + - z) by lia.
    rewrite inject_Z_plus, inject_Z_opp. pose proof (Qlt_floor x). lra.
Qed.

Lemma pymod_floor (x : Q) (k : positive) :
  Qfloor (pymod x (inject_Z (Zpos k))) = Qfloor x mod Zpos k.
Proof.
  unfold pymod. rewrite Qfloor_div_Z.
  rewrite <- inject_Z_mult. rewrite Qfloor_sub_Z. rewrite Z.mod_eq; lia.
Qed.

Lemma pymod_nonneg (x : Q) (k : positive) :
  (0 <= x)%Q -> (0 <= pymod x (inject_Z (Zpos k)))%Q.
Proof.
  intros H. unfold pymod. rewrite Qfloor_div_Z. rewrite <- inject_Z_mult.
  pose proof (Qfloor_le x) as F.
  assert (Zpos k * (Qfloor x / Zpos k) <= Qfloor x) by (apply Z.mul_div_le; lia).
  rewrite Zle_Qle in H0. lra.
Qed.

Lemma py_int_inject (z : Z) : py_int (inject_Z z) = z.
Proof. unfold py_int, inject_Z. simpl. apply Z.quot_1_r. Qed.

Lemma floordiv_int (x : Q) (k : positive) :
  py_int (floordiv x (inject_Z (Zpos k))) = Qfloor x / Zpos k.
Proof. unfold floordiv. rewrite py_int_inject. apply Qfloor_div_Z. Qed.

Lemma pymod_int (x : Q) (k : positive) :
  (0 <= x)%Q -> py_int (pymod x (inject_Z (Zpos k))) = Qfloor x mod Zpos k.
Proof.
  intros H. rewrite py_int_floor by (apply pymod_nonneg; exact H).
  apply pymod_floor.
Qed.

(** C8: for a non-negative number of seconds, [format_duration] gives
    ["Ns"] below one minute, ["MmSs"] below one hour and ["HhMm"] from one
    hour on, where every component is taken from the integer part of the
    input (truncated, never rounded); the five boundary values of the
    specification are as stated. *)
Theorem format_duration_rule (seconds : Q) :
  (0 <= seconds)%Q ->
  let n := Qfloor seconds in
  ((seconds < 60)%Q -> format_duration seconds = str_of_int n ++ u "s") /\
  ((60 <= seconds)%Q -> (seconds < 3600)%Q ->
     format_duration seconds
     = str_of_int (n / 60) ++ u "m" ++ str_of_int (n mod 60) ++ u "s") /\
  ((3600 <= seconds)%Q ->
     format_duration seconds
     = str_of_int (n / 3600) ++ u "h" ++ str_of_int (n mod 3600 / 60) ++ u "m") /\
  format_duration 0 = u "0s" /\
  format_duration 59 = u "59s" /\
  format_duration 60 = u "1m0s" /\
  format_duration 3599 = u "59m59s" /\
  format_duration 3600 = u "1h0m".
Proof.
  intros Hpos n. unfold format_duration.
  change 60%Q with (inject_Z 60). change 3600%Q with (inject_Z 3600).
  repeat split; try reflexivity.
  - intros Hlt. apply ltb_spec in Hlt. rewrite Hlt.
    rewrite py_int_floor by exact Hpos. reflexivity.
  - intros Hge Hlt.
    apply ltb_false in Hge. apply ltb_spec in Hlt. rewrite Hge, Hlt.
    rewrite floordiv_int, pymod_int by exact Hpos. reflexivity.
  - intros Hge.
    assert (H60 : PyNum.ltb seconds (inject_Z 60) = false).
    { apply ltb_false. change (inject_Z 60) with 60%Q.
      change (inject_Z 3600) with 3600%Q in Hge. lra. }
    apply ltb_false in Hge. rewrite H60, Hge.
    rewrite !floordiv_int. rewrite pymod_floor. reflexivity.
Qed.

(** The rule of C8 at 1862.5 seconds. *)
Lemma format_duration_rule_witness :
  format_duration (3725 # 2) = u "31m2s".
Proof.
  destruct (format_duration_rule (3725 # 2)) as (_ & H & _).
  - unfold Qle; simpl; lia.
  - rewrite H.
    + reflexivity.
    + unfold Qle; simpl; lia.
    + unfold Qlt; simpl; lia.
Defined.

(** ** Lengths of padded strings, [render_job_bar] *)

Lemma str_mul_char (c : N) (n : Z) : str_mul [c] n = List.repeat c (Z.to_nat n).
Proof.
  unfold str_mul. induction (Z.to_nat n) as [|k IH]; simpl; [reflexivity|].
  now rewrite IH.
Qed.

Lemma len_str_mul_char (c : N) (n : Z) : len (str_mul [c] n) = Z.max 0 n.
Proof. rewrite str_mul_char. unfold len. rewrite List.repeat_length. lia. Qed.

Lemma len_app (a b : pystr) : len (a ++ b) = len a + len b.
Proof. unfold len. rewrite List.length_app. lia. Qed.

Lemma len_nonneg (a : pystr) : 0 <= len a.
Proof. unfold len. lia. Qed.

Lemma len_ljust (s : pystr) (w : Z) : len (ljust s w) = Z.max (len s) w.
Proof.
  unfold ljust. rewrite len_app. change (u " ") with [32%N].
  rewrite len_str_mul_char. lia.
Qed.

Lemma len_rjust (s : pystr) (w : Z) : len (rjust s w) = Z.max (len s) w.
Proof.
  unfold rjust. rewrite len_app. change (u " ") with [32%N].
  rewrite len_str_mul_char. lia.
Qed.

Lemma py_int_zero (x : Q) : (x == 0)%Q -> py_int x = 0.
Proof.
  destruct x as [n d]. unfold Qeq, py_int. simpl. intros H.
  replace n with 0 by lia. reflexivity.
Qed.

Lemma scaled_bounds (a b m : Q) (w : Z) :
  (0 <= a)%Q -> (a <= b)%Q -> (b <= m)%Q -> (0 < m)%Q -> 0 <= w ->
  0 <= Qfloor (a / m * inject_Z w)
  /\ Qfloor (a / m * inject_Z w) <= Qfloor (b / m * inject_Z w)
  /\ Qfloor (b / m * inject_Z w) <= w
  /\ (0 <= a / m * inject_Z w)%Q /\ (0 <= b / m * inject_Z w)%Q.
Proof.
  intros Ha Hab Hbm Hm Hw.
  assert (Hw' : (0 <= inject_Z w)%Q) by (rewrite Zle_Qle in Hw; exact Hw).
  assert (A0 : (0 <= a / m)%Q) by (apply Qle_shift_div_l; [exact Hm | lra]).
  assert (AB : (a / m <= b / m)%Q).
  { unfold Qdiv. apply Qmult_le_compat_r; [exact Hab|].
    apply Qlt_le_weak, Qinv_lt_0_compat, Hm. }
  assert (B1 : (b / m <= 1)%Q) by (apply Qle_shift_div_r; [exact Hm | lra]).
  assert (P0 : (0 <= a / m * inject_Z w)%Q) by (apply Qmult_le_0_compat; assumption).
  assert (PAB : (a / m * inject_Z w <= b / m * inject_Z w)%Q)
    by (apply Qmult_le_compat_r; assumption).
  assert (PB : (b / m * inject_Z w <= inject_Z w)%Q).
  { setoid_replace (inject_Z w) with (1 * inject_Z w)%Q at 2 by ring.
    apply Qmult_le_compat_r; assumption. }
  repeat split.
  - rewrite <- (Qfloor_Z 0). apply Qfloor_resp_le. exact P0.
  - apply Qfloor_resp_le. exact PAB.
  - rewrite <- (Qfloor_Z w) at 2. apply Qfloor_resp_le. exact PB.
  - exact P0.
  - lra.
Qed.

(** C1, as amended: for a positive width, when the queue and run times are
    non-negative and their sum does not exceed [max_secs], the bar is a run
    of queued glyphs, then a run of running glyphs, then spaces, the two
    runs together no longer than the width, and the bar is exactly [width]
    long; for any inputs, [max_secs == 0] gives [width] spaces and
    [queue_secs == run_secs == 0] gives [width] spaces. *)
Theorem render_job_bar_shape (queue_secs run_secs max_secs : Q) (width : Z) :
  0 < width ->
  ((0 <= queue_secs)%Q -> (0 <= run_secs)%Q ->
   (queue_secs + run_secs <= max_secs)%Q ->
   exists n1 n2 : Z,
     0 <= n1 /\ 0 <= n2 /\ n1 + n2 <= width /\
     render_job_bar queue_secs run_secs max_secs width
     = str_mul (u "░") n1 ++ str_mul (u "█") n2
         ++ str_mul (u " ") (width - n1 - n2) /\
     len (render_job_bar queue_secs run_secs max_secs width) = width) /\
  ((max_secs == 0)%Q ->
   render_job_bar queue_secs run_secs max_secs width = str_mul (u " ") width) /\
  ((queue_secs == 0)%Q -> (run_secs == 0)%Q ->
   render_job_bar queue_secs run_secs max_secs width = str_mul (u " ") width).
Proof.
  intros Hw. unfold render_job_bar.
  change (u " ") with [32%N]. change (u "░") with [9617%N].
  change (u "█") with [9608%N].
  split; [|split].
  - intros Hq Hr Hm.
    destruct (PyNum.eqb max_secs 0) eqn:E.
    + exists 0, 0. repeat split; try lia.
      * simpl. now rewrite !Z.sub_0_r.
      * rewrite len_str_mul_char. lia.
    + assert (Hm0 : (0 < max_secs)%Q).
      { destruct (Qlt_le_dec 0 max_secs) as [L|L]; [exact L|].
        assert (max_secs == 0)%Q by lra.
        apply eqb_spec in H. congruence. }
      destruct (scaled_bounds queue_secs (queue_secs + run_secs) max_secs width)
        as (F0 & F1 & F2 & P0 & P1); try lra; try lia.
      rewrite !py_int_floor by assumption.
      set (n1 := Qfloor (queue_secs / max_secs * inject_Z width)) in *.
      set (nt := Qfloor ((queue_secs + run_secs) / max_secs * inject_Z width)) in *.
      assert (L : len (str_mul [9617%N] n1 ++ str_mul [9608%N] (nt - n1)) = nt).
      { rewrite len_app, !len_str_mul_char. lia. }
      exists n1, (nt - n1). repeat split; try lia.
      * unfold ljust. rewrite L. rewrite <- List.app_assoc.
        change (u " ") with [32%N].
        replace (width - n1 - (nt - n1)) with (width - nt) by lia. reflexivity.
      * rewrite len_ljust, L. lia.
  - intros Hm. apply eqb_spec in Hm. rewrite Hm. reflexivity.
  - intros Hq Hr.
    destruct (PyNum.eqb max_secs 0) eqn:E; [reflexivity|].
    rewrite (py_int_zero ((queue_secs + run_secs) / max_secs * inject_Z width))
      by (rewrite Hq, Hr; unfold Qdiv; ring).
    rewrite (py_int_zero (queue_secs / max_secs * inject_Z width))
      by (rewrite Hq; unfold Qdiv; ring).
    simpl. unfold ljust. simpl. change (u " ") with [32%N].
    now rewrite Z.sub_0_r.
Qed.

(** The three parts of C1 on concrete bars. *)
Lemma render_job_bar_shape_witness :
  render_job_bar 30 120 150 16
  = str_mul (u "░") 3 ++ str_mul (u "█") 13 ++ str_mul (u " ") 0
  /\ render_job_bar 5 7 0 16 = str_mul (u " ") 16
  /\ render_job_bar 0 0 9 16 = str_mul (u " ") 16.
Proof.
  destruct (render_job_bar_shape 30 120 150 16) as (H & _); [lia|].
  destruct H as (n1 & n2 & _ & _ & _ & E & _);
    try (unfold Qle; simpl; lia).
  destruct (render_job_bar_shape 5 7 0 16) as (_ & H2 & _); [lia|].
  destruct (render_job_bar_shape 0 0 9 16) as (_ & _ & H3); [lia|].
  split; [reflexivity|]. split.
  - apply H2. reflexivity.
  - apply H3; reflexivity.
Defined.

(** C1 as stated fails: a job twice as long as the scale gives a bar of 32
    characters for a width of 16. *)
Lemma render_job_bar_overlong :
  ~ (forall (queue_secs run_secs max_secs : Q) (width : Z),
       0 < width ->
       len (render_job_bar queue_secs run_secs max_secs width) = width).
Proof.
  intros H. specialize (H 0%Q 20%Q 10%Q 16 eq_refl).
  vm_compute in H. discriminate H.
Qed.

Lemma ltb_compat (x x' y y' : Q) :
  (x == x')%Q -> (y == y')%Q -> PyNum.ltb x y = PyNum.ltb x' y'.
Proof.
  intros Hx Hy. apply eq_true_iff_eq. rewrite !ltb_spec. now rewrite Hx, Hy.
Qed.

Lemma count_running_acc (js : list Job.t) (bs be : Q) (acc : Z) :
  List.fold_left
    (fun running_count j =>
       if PyNum.ltb (timestamp (the (Job.started_at j))) be
          && PyNum.ltb bs (timestamp (the (Job.completed_at j)))
       then running_count + 1 else running_count) js acc
  = acc + overlap_count js bs be.
Proof.
  revert acc. unfold overlap_count, len_list.
  induction js as [|j js IH]; intros acc; simpl; [lia|].
  rewrite IH. unfold overlaps at 2.
  destruct (PyNum.ltb _ be && PyNum.ltb bs _); simpl; lia.
Qed.

Lemma count_running_spec (js : list Job.t) (bs be : Q) :
  count_running js bs be = overlap_count js bs be.
Proof. unfold count_running. now rewrite count_running_acc. Qed.

Lemma overlap_count_compat (js : list Job.t) (bs bs' be be' : Q) :
  (bs == bs')%Q -> (be == be')%Q ->
  overlap_count js bs be = overlap_count js bs' be'.
Proof.
  intros Hs He. unfold overlap_count. f_equal.
  apply List.filter_ext. intros j. unfold overlaps.
  rewrite (ltb_compat _ (timestamp (the (Job.started_at j))) be be');
    [|reflexivity|exact He].
  rewrite (ltb_compat bs bs' _ (timestamp (the (Job.completed_at j))));
    [reflexivity|exact Hs|reflexivity].
Qed.

Lemma overlap_count_bounds (js : list Job.t) (bs be : Q) :
  0 <= overlap_count js bs be <= len_list js.
Proof.
  unfold overlap_count, len_list. pose proof (List.filter_length_le (overlaps bs be) js).
  lia.
Qed.

Lemma level_int (c n : Z) :
  0 <= c -> 0 < n ->
  py_int (inject_Z c / inject_Z n * 8)%Q = 8 * c / n.
Proof.
  intros Hc Hn.
  assert (E : (inject_Z c / inject_Z n * 8 == inject_Z (8 * c) / inject_Z n)%Q).
  { rewrite inject_Z_mult. unfold Qdiv. change (inject_Z 8) with 8%Q. ring. }
  assert (P : (0 <= inject_Z (8 * c) / inject_Z n)%Q).
  { apply Qle_shift_div_l.
    - change 0%Q with (inject_Z 0). rewrite <- Zlt_Qlt. exact Hn.
    - rewrite Qmult_0_l. change 0%Q with (inject_Z 0). rewrite <- Zle_Qle. lia. }
  rewrite py_int_floor by (rewrite E; exact P).
  rewrite (Qfloor_comp _ _ E). symmetry. apply Zdiv_Qdiv.
Qed.

Lemma char_at_blocks (l : Z) :
  0 <= l <= 8 ->
  char_at SPARK_BLOCKS l = [List.nth (Z.to_nat l) SPARK_BLOCKS 32%N].
Proof.
  intros H.
  assert (C : l = 0 \/ l = 1 \/ l = 2 \/ l = 3 \/ l = 4 \/ l = 5 \/ l = 6
              \/ l = 7 \/ l = 8) by lia.
  repeat (destruct C as [-> | C]; [reflexivity|]). subst l. reflexivity.
Qed.

Lemma concat_singletons {A B} (f : A -> list B) (g : A -> B) (l : list A) :
  (forall a, List.In a l -> f a = [g a]) ->
  List.concat (List.map f l) = List.map g l.
Proof.
  induction l as [|a l IH]; intros H; simpl; [reflexivity|].
  rewrite (H a) by (now left). simpl. f_equal. apply IH.
  intros b Hb. apply H. now right.
Qed.

Lemma range_In (n i : Z) : List.In i (range n) <-> 0 <= i < n.
Proof.
  unfold range. rewrite List.in_map_iff. split.
  - intros (k & <- & Hk). apply List.in_seq in Hk. lia.
  - intros H. exists (Z.to_nat i). split; [lia|]. apply List.in_seq. lia.
Qed.


Lemma range_length (n : Z) : List.length (range n) = Z.to_nat n.
Proof. unfold range. now rewrite List.length_map, List.length_seq. Qed.

(** The character the loop body appends for bucket [i]. *)
Lemma sparkline_body (fj : list Job.t) (min_time : Z) (ts : Q) (width i : Z) :
  fj <> [] ->
  (let bucket_seconds := (ts / inject_Z width)%Q in
   let bucket_start := (timestamp min_time + inject_Z i * bucket_seconds)%Q in
   let bucket_end := (bucket_start + bucket_seconds)%Q in
   let running_count := count_running fj bucket_start bucket_end in
   if running_count =? 0 then char_at SPARK_BLOCKS 0
   else
     char_at SPARK_BLOCKS
       (Z.min 8 (Z.max 1 (py_int
          ((inject_Z running_count / inject_Z (len_list fj)) * 8)%Q))))
  = [density_glyph
       (overlap_count fj (bucket_start_spec (timestamp min_time) ts width i)
          (bucket_end_spec (timestamp min_time) ts width i))
       (len_list fj)].
Proof.
  intros Hne. cbv zeta.
  rewrite count_running_spec.
  rewrite (overlap_count_compat fj _
             (bucket_start_spec (timestamp min_time) ts width i) _
             (bucket_end_spec (timestamp min_time) ts width i)).
  2: { unfold bucket_start_spec. reflexivity. }
  2: { unfold bucket_end_spec. rewrite inject_Z_plus.
       change (inject_Z 1) with 1%Q. ring. }
  set (c := overlap_count fj _ _).
  assert (Hc : 0 <= c <= len_list fj) by apply overlap_count_bounds.
  unfold density_glyph.
  destruct (c =? 0) eqn:E; [reflexivity|].
  apply Z.eqb_neq in E.
  rewrite level_int by lia.
  unfold clamp. apply char_at_blocks. lia.
Qed.

Lemma total_seconds_zero (d : Z) : PyNum.eqb (total_seconds d) 0 = (d =? 0).
Proof.
  unfold PyNum.eqb, total_seconds, Qeq_bool. simpl.
  destruct d; reflexivity.
Qed.

(** The general branch of [render_sparkline], once the guards are passed. *)
Lemma render_sparkline_general (jobs : list Job.t) (width : Z)
    (j0 : Job.t) (js : list Job.t) :
  List.filter both_times jobs = j0 :: js ->
  latest j0 js - earliest j0 js <> 0 ->
  width <> 0 ->
  render_sparkline jobs width
  = Ok (List.map
          (fun i =>
             density_glyph
               (overlap_count (j0 :: js)
                  (bucket_start_spec (timestamp (earliest j0 js))
                     (total_seconds (latest j0 js - earliest j0 js)) width i)
                  (bucket_end_spec (timestamp (earliest j0 js))
                     (total_seconds (latest j0 js - earliest j0 js)) width i))
               (len_list (j0 :: js)))
          (range width)).
Proof.
  intros Hf Hspan Hw. unfold render_sparkline.
  destruct jobs as [|a l]; [discriminate Hf|].
  rewrite Hf. fold (earliest j0 js). fold (latest j0 js).
  rewrite total_seconds_zero.
  destruct (Z.eqb_spec (latest j0 js - earliest j0 js) 0) as [E|_]; [contradiction|].
  destruct (Z.eqb_spec width 0) as [E|_]; [contradiction|].
  f_equal. apply concat_singletons. intros i _.
  apply (sparkline_body (j0 :: js) (earliest j0 js)). discriminate.
Qed.


(** C3: for a positive width the sparkline is exactly [width] characters
    long; it is all blank when no job has both timestamps, and all the
    highest glyph when the span of the filtered jobs is zero. *)
Theorem render_sparkline_length (jobs : list Job.t) (width : Z) :
  0 < width ->
  exists s : pystr,
    render_sparkline jobs width = Ok s /\
    len s = width /\
    (List.filter both_times jobs = [] -> s = str_mul (u " ") width) /\
    (forall j0 js, List.filter both_times jobs = j0 :: js ->
       latest j0 js - earliest j0 js = 0 -> s = str_mul (u "█") width).
Proof.
  intros Hw.
  destruct (List.filter both_times jobs) as [|j0 js] eqn:Hf.
  - exists (str_mul (u " ") width). repeat split.
    + unfold render_sparkline. destruct jobs; [reflexivity|]. now rewrite Hf.
    + change (u " ") with [32%N]. rewrite len_str_mul_char. lia.
    + intros j1 js1 H. discriminate H.
  - destruct (Z.eq_dec (latest j0 js - earliest j0 js) 0) as [E|E].
    + exists (str_mul (u "█") width). repeat split.
      * unfold render_sparkline. destruct jobs as [|a l]; [discriminate Hf|].
        rewrite Hf. fold (earliest j0 js). fold (latest j0 js).
        rewrite total_seconds_zero, E. reflexivity.
      * change (u "█") with [9608%N]. rewrite len_str_mul_char. lia.
      * intros H. discriminate H.
    + eexists. split; [apply (render_sparkline_general jobs width j0 js Hf E); lia|].
      repeat split.
      * unfold len. rewrite List.length_map, range_length. lia.
      * intros H. discriminate H.
      * intros j1 js1 H1 H2. injection H1 as <- <-. contradiction.
Qed.

(** ** Order on strings, [sorted(set(...))] *)

Lemma str_eqb_eq (a b : pystr) : PyStr.eqb a b = true <-> a = b.
Proof.
  revert b. induction a as [|x a IH]; intros [|y b]; simpl; split; intros H;
    try reflexivity; try discriminate.
  - apply andb_true_iff in H as [H1 H2]. apply N.eqb_eq in H1.
    apply IH in H2. congruence.
  - injection H as -> ->. rewrite N.eqb_refl. simpl. now apply IH.
Qed.

Lemma str_eqb_refl (a : pystr) : PyStr.eqb a a = true.
Proof. now apply str_eqb_eq. Qed.

Lemma str_eqb_neq (a b : pystr) : PyStr.eqb a b = false <-> a <> b.
Proof.
  rewrite <- str_eqb_eq. destruct (PyStr.eqb a b); split; congruence.
Qed.

Lemma str_ltb_irrefl (a : pystr) : PyStr.ltb a a = false.
Proof.
  induction a as [|x a IH]; simpl; [reflexivity|].
  rewrite N.ltb_irrefl, N.eqb_refl. simpl. exact IH.
Qed.

Lemma str_ltb_trans (a b c : pystr) :
  PyStr.ltb a b = true -> PyStr.ltb b c = true -> PyStr.ltb a c = true.
Proof.
  revert b c. induction a as [|x a IH]; intros [|y b] [|z c]; simpl;
    try discriminate; try reflexivity.
  intros H1 H2.
  apply orb_true_iff in H1. apply orb_true_iff in H2. apply orb_true_iff.
  destruct H1 as [H1|H1], H2 as [H2|H2].
  - left. apply N.ltb_lt in H1, H2. apply N.ltb_lt. lia.
  - apply andb_true_iff in H2 as [E _]. apply N.eqb_eq in E. subst z. now left.
  - apply andb_true_iff in H1 as [E _]. apply N.eqb_eq in E. subst y. now left.
  - apply andb_true_iff in H1 as [E1 L1]. apply andb_true_iff in H2 as [E2 L2].
    apply N.eqb_eq in E1, E2. subst y z. right.
    rewrite N.eqb_refl. simpl. eapply IH; eauto.
Qed.

Lemma str_total (a b : pystr) :
  PyStr.ltb a b = false -> PyStr.eqb a b = false -> PyStr.ltb b a = true.
Proof.
  revert b. induction a as [|x a IH]; intros [|y b]; simpl;
    try discriminate; try reflexivity.
  intros H1 H2. apply orb_false_iff in H1 as [L1 L2].
  apply N.ltb_ge in L1.
  destruct (N.eqb_spec x y) as [->|Ne].
  - simpl in *. rewrite N.ltb_irrefl, N.eqb_refl. simpl. now apply IH.
  - assert (H : (y <? x)%N = true) by (apply N.ltb_lt; lia). now rewrite H.
Qed.

Lemma insert_name_In (x y : pystr) (l : list pystr) :
  List.In y (insert_name x l) <-> y = x \/ List.In y l.
Proof.
  induction l as [|z l IH]; simpl.
  - intuition.
  - destruct (PyStr.ltb x z) eqn:L; simpl.
    + intuition.
    + destruct (PyStr.eqb x z) eqn:E; simpl.
      * apply str_eqb_eq in E. subst z. intuition.
      * rewrite IH. intuition.
Qed.

Lemma sorted_set_In (y : pystr) (l : list pystr) :
  List.In y (sorted_set l) <-> List.In y l.
Proof.
  unfold sorted_set. induction l as [|x l IH]; simpl; [reflexivity|].
  rewrite insert_name_In, IH. intuition.
Qed.

Lemma insert_name_HdRel (x y : pystr) (l : list pystr) :
  str_lt y x -> HdRel str_lt y l -> HdRel str_lt y (insert_name x l).
Proof.
  intros Hyx H. destruct l as [|z l]; simpl.
  - now constructor.
  - inversion H; subst.
    destruct (PyStr.ltb x z); [now constructor|].
    destruct (PyStr.eqb x z); now constructor.
Qed.

Lemma insert_name_Sorted (x : pystr) (l : list pystr) :
  Sorted str_lt l -> Sorted str_lt (insert_name x l).
Proof.
  induction l as [|z l IH]; intros H; simpl.
  - repeat constructor.
  - inversion H; subst.
    destruct (PyStr.ltb x z) eqn:L.
    + constructor; [exact H|]. now constructor.
    + destruct (PyStr.eqb x z) eqn:E; [exact H|].
      constructor; [now apply IH|].
      apply insert_name_HdRel; [|assumption].
      now apply str_total.
Qed.

Lemma sorted_set_Sorted (l : list pystr) : StronglySorted str_lt (sorted_set l).
Proof.
  apply Sorted_StronglySorted.
  - intros a b c. apply str_ltb_trans.
  - unfold sorted_set. induction l as [|x l IH]; simpl; [constructor|].
    now apply insert_name_Sorted.
Qed.

(** ** The name-to-job mapping and the job loop *)

Lemma dict_get_set (d : dict) (k k' : pystr) (v : Job.t) :
  dict_get (dict_set d k v) k'
  = if PyStr.eqb k k' then Some v else dict_get d k'.
Proof.
  induction d as [|[k0 v0] d IH]; simpl.
  - reflexivity.
  - destruct (PyStr.eqb k0 k) eqn:E; simpl.
    + apply str_eqb_eq in E. subst k0. destruct (PyStr.eqb k k'); reflexivity.
    + rewrite IH. destruct (PyStr.eqb k k') eqn:E'; [|reflexivity].
      apply str_eqb_eq in E'. subst k'. now rewrite E.
Qed.

Lemma dict_get_In (d : dict) (k : pystr) :
  List.In k (keys d) <-> dict_get d k <> None.
Proof.
  induction d as [|[k0 v0] d IH]; simpl.
  - intuition.
  - destruct (PyStr.eqb k0 k) eqn:E.
    + apply str_eqb_eq in E. split; [discriminate|now left].
    + apply str_eqb_neq in E. rewrite <- IH. intuition.
Qed.

Lemma find_app {A} (f : A -> bool) (l1 l2 : list A) :
  List.find f (l1 ++ l2)
  = match List.find f l1 with Some a => Some a | None => List.find f l2 end.
Proof.
  induction l1 as [|a l1 IH]; simpl; [reflexivity|].
  destruct (f a); [reflexivity|exact IH].
Qed.

Lemma fold_dict_get {A} (key : A -> pystr) (val : A -> Job.t)
    (l : list A) (d : dict) (k : pystr) :
  dict_get (List.fold_left (fun d a => dict_set d (key a) (val a)) l d) k
  = match List.find (fun a => PyStr.eqb (key a) k) (List.rev l) with
    | Some a => Some (val a)
    | None => dict_get d k
    end.
Proof.
  revert d. induction l as [|a l IH]; intros d; simpl; [reflexivity|].
  rewrite IH. rewrite find_app.
  destruct (List.find _ (List.rev l)); [reflexivity|].
  simpl. rewrite dict_get_set. destruct (PyStr.eqb (key a) k); reflexivity.
Qed.

Lemma jobs_by_name_get (jobs : list Job.t) (name : pystr) :
  dict_get (jobs_by_name jobs) name
  = List.find (fun j => PyStr.eqb (normalize_job_name (Job.name j)) name)
      (List.rev (List.filter (fun j => truthy (Job.completed_at j)) jobs)).
Proof.
  unfold jobs_by_name.
  rewrite (fold_dict_get (fun j => normalize_job_name (Job.name j)) (fun j => j)).
  destruct (List.find _ _); reflexivity.
Qed.

Lemma diff_step_lines jobs1 jobs2 m bw nw st name :
  lines (diff_step jobs1 jobs2 m bw nw st name)
  = lines st ++ diff_rows jobs1 jobs2 m bw nw name.
Proof.
  unfold diff_rows, diff_step.
  destruct (dict_get jobs1 name), (dict_get jobs2 name); simpl;
    try reflexivity. now rewrite List.app_nil_r.
Qed.

Lemma diff_fold_lines jobs1 jobs2 m bw nw names st :
  lines (List.fold_left (diff_step jobs1 jobs2 m bw nw) names st)
  = lines st ++ List.flat_map (diff_rows jobs1 jobs2 m bw nw) names.
Proof.
  revert st. induction names as [|n names IH]; intros st; simpl.
  - now rewrite List.app_nil_r.
  - rewrite IH, diff_step_lines. now rewrite <- List.app_assoc.
Qed.

(** ** [render_unified_diff]: rows and delta tags *)

Lemma app_regroup {A} (h fm a b c d : list A) :
  ((((h ++ fm) ++ a) ++ b) ++ c) ++ d = h ++ fm ++ (a ++ b ++ c ++ d).
Proof. now rewrite <- !List.app_assoc. Qed.

Lemma unified_diff_table (run1 run2 : WorkflowRun.t) (width : Z) :
  exists pre post : list pystr,
    unified_diff_lines run1 run2 width
    = pre ++ List.flat_map
               (diff_rows (jobs_by_name (WorkflowRun.jobs run1))
                  (jobs_by_name (WorkflowRun.jobs run2))
                  (bar_scale (jobs_by_name (WorkflowRun.jobs run1))
                     (jobs_by_name (WorkflowRun.jobs run2))) 16 28)
               (all_job_names (jobs_by_name (WorkflowRun.jobs run1))
                  (jobs_by_name (WorkflowRun.jobs run2))) ++ post.
Proof.
  unfold unified_diff_lines. cbv zeta.
  rewrite diff_fold_lines. cbn [lines]. unfold bar_scale.
  match goal with
  | |- exists pre post, ((((?h ++ ?fm) ++ ?a) ++ ?b) ++ ?c) ++ ?d = _ =>
      exists h, (a ++ b ++ c ++ d); exact (app_regroup h fm a b c d)
  end.
Qed.

Lemma name_in_all_l (jobs1 jobs2 : dict) (name : pystr) (j : Job.t) :
  dict_get jobs1 name = Some j -> List.In name (all_job_names jobs1 jobs2).
Proof.
  intros H. unfold all_job_names. apply sorted_set_In, List.in_or_app. left.
  apply dict_get_In. congruence.
Qed.

Lemma name_in_all_r (jobs1 jobs2 : dict) (name : pystr) (j : Job.t) :
  dict_get jobs2 name = Some j -> List.In name (all_job_names jobs1 jobs2).
Proof.
  intros H. unfold all_job_names. apply sorted_set_In, List.in_or_app. right.
  apply dict_get_In. congruence.
Qed.




(** C5: each run's mapping sends a normalized name to the last job of the
    run, among those with [completed_at] set, that normalizes to it; the rows
    of the table follow the strictly increasing list of the names of either
    mapping; a name found in one run only gets that run's bar and
    ["(missing)"] on the other side. *)
Theorem diff_matching (run1 run2 : WorkflowRun.t) (width : Z) :
  let jobs1 := jobs_by_name (WorkflowRun.jobs run1) in
  let jobs2 := jobs_by_name (WorkflowRun.jobs run2) in
  let names := all_job_names jobs1 jobs2 in
  let m := bar_scale jobs1 jobs2 in
  (forall (jobs : list Job.t) (name : pystr),
     dict_get (jobs_by_name jobs) name
     = List.find (fun j => PyStr.eqb (normalize_job_name (Job.name j)) name)
         (List.rev (List.filter (fun j => truthy (Job.completed_at j)) jobs))) /\
  StronglySorted str_lt names /\
  (forall name, List.In name names
                <-> dict_get jobs1 name <> None \/ dict_get jobs2 name <> None) /\
  (exists pre post : list pystr,
     unified_diff_lines run1 run2 width
     = pre ++ List.flat_map (diff_rows jobs1 jobs2 m 16 28) names ++ post) /\
  (forall name j1,
     dict_get jobs1 name = Some j1 -> dict_get jobs2 name = None ->
     diff_rows jobs1 jobs2 m 16 28 name = [only_run1_row m name j1]) /\
  (forall name j2,
     dict_get jobs1 name = None -> dict_get jobs2 name = Some j2 ->
     diff_rows jobs1 jobs2 m 16 28 name = [only_run2_row m name j2]).
Proof.
  intros jobs1 jobs2 names m.
  split; [|split; [|split; [|split; [|split]]]].
  - apply jobs_by_name_get.
  - apply sorted_set_Sorted.
  - intros name. unfold names, all_job_names.
    rewrite sorted_set_In, List.in_app_iff, !dict_get_In. reflexivity.
  - exact (unified_diff_table run1 run2 width).
  - intros name j1 H1 H2. unfold diff_rows, diff_step. now rewrite H1, H2.
  - intros name j2 H1 H2. unfold diff_rows, diff_step. now rewrite H1, H2.
Qed.

(** C5 on a run with two jobs that normalize to ["test"] and a job on
    each side that the other run lacks. *)
Lemma diff_matching_witness :
  dict_get (jobs_by_name (WorkflowRun.jobs collide_run1)) (u "test")
  = Some (scenario_job "matrix / test" 20 40)
  /\ all_job_names (jobs_by_name (WorkflowRun.jobs collide_run1))
       (jobs_by_name (WorkflowRun.jobs collide_run2))
     = [u "docs"; u "lint"; u "test"]
  /\ diff_rows (jobs_by_name (WorkflowRun.jobs collide_run1))
       (jobs_by_name (WorkflowRun.jobs collide_run2))
       (bar_scale (jobs_by_name (WorkflowRun.jobs collide_run1))
          (jobs_by_name (WorkflowRun.jobs collide_run2))) 16 28 (u "lint")
     = [u "lint                         ░███████            35s  (missing)              "]
  /\ diff_rows (jobs_by_name (WorkflowRun.jobs collide_run1))
       (jobs_by_name (WorkflowRun.jobs collide_run2))
       (bar_scale (jobs_by_name (WorkflowRun.jobs collide_run1))
          (jobs_by_name (WorkflowRun.jobs collide_run2))) 16 28 (u "docs")
     = [u "docs                         (missing)                ░███████████████   1m5s"].
Proof.
  destruct (diff_matching collide_run1 collide_run2 140)
    as (Hget & _ & _ & _ & H1 & H2).
  split; [rewrite Hget; reflexivity|].
  split; [reflexivity|].
  split.
  - exact (H1 (u "lint") (scenario_job "lint" 5 30) eq_refl eq_refl).
  - exact (H2 (u "docs") (scenario_job "docs" 5 60) eq_refl eq_refl).
Defined.

(** ** [render_unified_diff]: aggregate deltas and key insight *)

Lemma fold_left_app_Q (l1 l2 : list Q) (a : Q) :
  List.fold_left Qplus (l1 ++ l2) a
  = List.fold_left Qplus l2 (List.fold_left Qplus l1 a).
Proof. apply List.fold_left_app. Qed.

Lemma diff_fold_deltas jobs1 jobs2 m bw nw names st :
  total_run_delta (List.fold_left (diff_step jobs1 jobs2 m bw nw) names st)
  = List.fold_left Qplus
      (matched_deltas Job.run_duration_seconds jobs1 jobs2 names)
      (total_run_delta st)
  /\ total_queue_delta (List.fold_left (diff_step jobs1 jobs2 m bw nw) names st)
     = List.fold_left Qplus
         (matched_deltas Job.queue_duration_seconds jobs1 jobs2 names)
         (total_queue_delta st).
Proof.
  revert st. induction names as [|n names IH]; intros st; simpl.
  - split; reflexivity.
  - destruct (IH (diff_step jobs1 jobs2 m bw nw st n)) as [E1 E2].
    rewrite E1, E2. unfold matched_deltas. simpl.
    rewrite !fold_left_app_Q. unfold diff_step.
    destruct (dict_get jobs1 n), (dict_get jobs2 n); simpl; split; reflexivity.
Qed.

Lemma app_regroup2 {A} (x c k d : list A) :
  (x ++ c ++ k) ++ d = (x ++ c) ++ k ++ d.
Proof. now rewrite <- !List.app_assoc. Qed.


Lemma if_singleton {A} (a b : bool) (x y z : A) :
  (if a then [x] else if b then [y] else [z])
  = [if a then x else if b then y else z].
Proof. destruct a, b; reflexivity. Qed.

Lemma key_insight_parts (wall_delta total_run_delta total_queue_delta : Q) :
  key_insight wall_delta total_run_delta total_queue_delta
  = [u "KEY INSIGHT:"] ++ [build_line total_run_delta]
      ++ queue_lines total_queue_delta
      ++ cross_lines wall_delta total_run_delta.
Proof.
  unfold key_insight, build_line, queue_lines, cross_lines,
    line_saved, line_spent, line_same, line_more_queue, line_less_queue,
    line_masked, line_end_to_end.
  rewrite if_singleton. reflexivity.
Qed.




(** C9, at the scenario of the specification: the per-job tag shows
    ["-1m10s"], and the aggregate rows show the same negative deltas without
    any sign. *)
Theorem aggregate_delta_drops_minus :
  (aggregate_delta (-70) = u "     1m10s") /\
  (delta_str (-70) = u "-1m10s") /\
  (List.nth_error (unified_diff_lines baseline comparison 140) 6
   = Some (u "build                        ░░░█████████████  2m30s  ░░░█████          1m20s      -1m10s")) /\
  (List.nth_error (unified_diff_lines baseline comparison 140) 9
   = Some (u "Wall clock:                                    2m30s                    1m20s       1m10s")) /\
  (List.nth_error (unified_diff_lines baseline comparison 140) 10
   = Some (u "Sum of run times:                               2m0s                      50s       1m10s")) /\
  (List.nth_error (unified_diff_lines baseline comparison 140) 11
   = Some (u "Sum of queue times:                              30s                      30s          0s")).
Proof. repeat split; vm_compute; reflexivity. Qed.

(** C10: when the jobs with both timestamps are not empty and their span
    is zero, [render_single_run] returns the single line
    ["All jobs completed instantly"]. *)
Theorem render_single_run_instant (run : WorkflowRun.t) (width : Z)
    (j0 : Job.t) (js : list Job.t) :
  List.filter both_times (WorkflowRun.jobs run) = j0 :: js ->
  latest j0 js - earliest j0 js = 0 ->
  render_single_run run width = Ok (u "All jobs completed instantly").
Proof.
  intros Hf Hspan. unfold render_single_run.
  destruct (WorkflowRun.jobs run) as [|a l] eqn:Hj; [discriminate Hf|].
  rewrite Hf. fold (earliest j0 js). fold (latest j0 js).
  rewrite total_seconds_zero, Hspan. reflexivity.
Qed.

(** C10 on a run whose two jobs are created, started and completed at
    the same instant. *)
Lemma render_single_run_instant_witness :
  render_single_run instant_run 120 = Ok (u "All jobs completed instantly").
Proof.
  exact (render_single_run_instant instant_run 120
           (scenario_job "build" 0 0) [scenario_job "lint" 0 0]
           eq_refl eq_refl).
Defined.

Lemma existsb_eqb_In (c : N) (s : pystr) :
  List.existsb (N.eqb c) s = true <-> List.In c s.
Proof.
  rewrite List.existsb_exists. split.
  - intros (x & Hx & E). apply N.eqb_eq in E. now subst.
  - intros H. exists c. split; [exact H|apply N.eqb_refl].
Qed.

Lemma after_last_none (sep : N) (s : pystr) :
  ~ List.In sep s -> after_last sep s = s.
Proof.
  destruct s as [|c r]; intros H; simpl; [reflexivity|].
  destruct (List.existsb (N.eqb sep) r) eqn:E.
  - apply existsb_eqb_In in E. exfalso. apply H. now right.
  - destruct (N.eqb_spec c sep) as [->|_]; [|reflexivity].
    exfalso. apply H. now left.
Qed.

Lemma after_last_app (sep : N) (pre rest : pystr) :
  ~ List.In sep rest -> after_last sep (pre ++ sep :: rest) = rest.
Proof.
  intros H. induction pre as [|c pre IH]; simpl.
  - destruct (List.existsb (N.eqb sep) rest) eqn:E.
    + apply existsb_eqb_In in E. contradiction.
    + now rewrite N.eqb_refl.
  - assert (E : List.existsb (N.eqb sep) (pre ++ sep :: rest) = true).
    { apply existsb_eqb_In, List.in_or_app. right. now left. }
    now rewrite E.
Qed.

Lemma remove_go_In (old s : pystr) (k : nat) (c : N) :
  List.In c (remove_go old s k) -> List.In c s.
Proof.
  revert k. induction s as [|x r IH]; intros k; simpl; [tauto|].
  destruct k as [|k].
  - destruct (is_prefix old (x :: r)).
    + intros H. right. eapply IH, H.
    + intros [H|H]; [now left|]. right. eapply IH, H.
  - intros H. right. eapply IH, H.
Qed.

Lemma remove_In (old s : pystr) (c : N) :
  List.In c (remove old s) -> List.In c s.
Proof. destruct old; simpl; [tauto|]. apply remove_go_In. Qed.

Lemma remove_char_gone (c : N) (s : pystr) : ~ List.In c (remove [c] s).
Proof.
  unfold remove. induction s as [|x r IH]; simpl; [tauto|].
  destruct (N.eqb_spec c x) as [->|Ne]; simpl.
  - exact IH.
  - intros [H|H]; [congruence|]. now apply IH.
Qed.

Lemma remove_absent (old s : pystr) :
  occurs old s = false -> remove old s = s.
Proof.
  destruct old as [|o old']; [reflexivity|].
  unfold remove. induction s as [|x r IH]; intros H; [reflexivity|].
  cbn [occurs] in H. apply orb_false_iff in H as [H1 H2].
  cbn [remove_go]. rewrite H1. f_equal. now apply IH.
Qed.

Lemma normalize_unfold (name : pystr) :
  normalize_job_name name
  = List.fold_left (fun s old => remove old s) decorations
      (strip (after_last 47%N name)).
Proof.
  unfold normalize_job_name, decorations. cbn [List.fold_left]. reflexivity.
Qed.

Lemma fold_remove_In (olds : list pystr) (s : pystr) (c : N) :
  List.In c (List.fold_left (fun s old => remove old s) olds s) -> List.In c s.
Proof.
  revert s. induction olds as [|o olds IH]; intros s; simpl; [tauto|].
  intros H. eapply remove_In, IH, H.
Qed.

Lemma fold_remove_absent (olds : list pystr) (s : pystr) :
  List.forallb (fun old => negb (occurs old s)) olds = true ->
  List.fold_left (fun s old => remove old s) olds s = s.
Proof.
  induction olds as [|o olds IH]; simpl; [reflexivity|].
  intros H. apply andb_true_iff in H as [H1 H2].
  apply negb_true_iff in H1. rewrite (remove_absent o s H1). now apply IH.
Qed.

(** C7, as amended: the normalizer keeps what follows the last ["/"], trims
    it, and deletes every occurrence of each entry of the fixed decoration
    list, in order; every [")"] goes, not only a final one; a trimmed name in
    which no decoration occurs is returned unchanged; the two examples of the
    specification are as stated. *)
Theorem normalize_job_name_rule (name : pystr) :
  let short := strip (after_last 47%N name) in
  (forall pre rest, name = pre ++ 47%N :: rest -> ~ List.In 47%N rest ->
     after_last 47%N name = rest) /\
  (~ List.In 47%N name -> after_last 47%N name = name) /\
  normalize_job_name name
  = List.fold_left (fun s old => remove old s) decorations short /\
  ~ List.In 41%N (normalize_job_name name) /\
  (List.forallb (fun old => negb (occurs old short)) decorations = true ->
   normalize_job_name name = short) /\
  normalize_job_name (u "build (ubuntu-22.04, test)") = u "test" /\
  normalize_job_name (u "group / actual-job") = u "actual-job".
Proof.
  intros short.
  split; [|split; [|split; [|split; [|split; [|split]]]]].
  - intros pre rest -> H. now apply after_last_app.
  - apply after_last_none.
  - apply normalize_unfold.
  - rewrite normalize_unfold. unfold decorations. cbn [List.fold_left].
    intros H. do 6 (apply remove_In in H).
    change (u ")") with [41%N] in H. exact (remove_char_gone _ _ H).
  - intros H. rewrite normalize_unfold. now apply fold_remove_absent.
  - vm_compute. reflexivity.
  - vm_compute. reflexivity.
Qed.

(** C7 on a name with an unknown decoration. *)
Lemma normalize_job_name_rule_witness :
  normalize_job_name (u "ci / test (shard-3]") = u "test (shard-3]".
Proof.
  destruct (normalize_job_name_rule (u "ci / test (shard-3]"))
    as (_ & _ & _ & _ & H & _).
  rewrite H; vm_compute; reflexivity.
Defined.

(** C7 as stated fails: a [")"] inside the name is deleted, where the
    specification drops only a final one. *)
Lemma normalize_inner_paren :
  normalize_job_name (u "e2e (chrome) smoke") = u "e2e (chrome smoke"
  /\ normalize_job_name_spec (u "e2e (chrome) smoke") = u "e2e (chrome) smoke"
  /\ ~ (forall name, normalize_job_name name = normalize_job_name_spec name).
Proof.
  split; [vm_compute; reflexivity|]. split; [vm_compute; reflexivity|].
  intros H. specialize (H (u "e2e (chrome) smoke")).
  vm_compute in H. discriminate H.
Qed.


(** C3 on two jobs and a width of 20. *)
Lemma render_sparkline_length_witness :
  exists s : pystr, render_sparkline spark_jobs 20 = Ok s /\ len s = 20.
Proof.
  destruct (render_sparkline_length spark_jobs 20) as (s & E & L & _).
  - lia.
  - exists s. split; assumption.
Defined.

(** * Further properties of the code *)

(** ** The three durations of a job *)



(** ** [format_duration] outside the non-negative range, and its alphabet *)

Lemma py_int_ceiling (x : Q) : (x <= 0)%Q -> py_int x = Qceiling x.
Proof.
  destruct x as [n d]. unfold Qle, py_int, Qceiling, Qfloor, Qopp. simpl.
  intros H.
  replace n with (- - n) at 1 by lia.
  rewrite Z.quot_opp_l by lia. f_equal.
  apply Z.quot_div_nonneg; lia.
Qed.

Lemma u_cons_ascii (a : ascii) (s : string) :
  (N_of_ascii a < 128)%N -> u (String a s) = N_of_ascii a :: u s.
Proof.
  intros H. unfold u. cbn [list_ascii_of_string List.map utf8].
  apply N.ltb_lt in H. rewrite H. reflexivity.
Qed.

Lemma str_of_int_neg (p : positive) :
  str_of_int (Zneg p) = u "-" ++ str_of_int (Zpos p).
Proof.
  unfold str_of_int. cbn [Z.to_int NilZero.string_of_int].
  rewrite u_cons_ascii by (vm_compute; reflexivity). reflexivity.
Qed.

(** X2: on a negative number of seconds [format_duration] never reaches the
    minute and hour forms: it prints the input truncated toward zero (its
    ceiling), followed by ["s"] - a minus sign and the full count of seconds
    from -1 down, and ["0s"] above -1. *)
Theorem format_duration_negative (seconds : Q) :
  (seconds < 0)%Q ->
  format_duration seconds = str_of_int (Qceiling seconds) ++ u "s" /\
  ((-1 < seconds)%Q -> format_duration seconds = u "0s") /\
  ((seconds <= -1)%Q ->
     format_duration seconds
     = u "-" ++ str_of_int (- Qceiling seconds) ++ u "s").
Proof.
  intros Hneg.
  assert (E : format_duration seconds = str_of_int (Qceiling seconds) ++ u "s").
  { unfold format_duration.
    assert (H : PyNum.ltb seconds 60 = true) by (apply ltb_spec; lra).
    rewrite H. rewrite py_int_ceiling by lra. reflexivity. }
  split; [exact E|]. split.
  - intros H. rewrite E.
    assert (C : Qceiling seconds = 0).
    { unfold Qceiling.
      rewrite (Qfloor_unique (- seconds) 0); [reflexivity| |];
        change (inject_Z 0) with 0%Q; change (inject_Z (0 + 1)) with 1%Q; lra. }
    rewrite C. reflexivity.
  - intros H. rewrite E.
    assert (C : Qceiling seconds <= -1).
    { unfold Qceiling.
      assert (1 <= Qfloor (- seconds)).
      { change 1 with (Qfloor (inject_Z 1)) at 1.
        apply Qfloor_resp_le. change (inject_Z 1) with 1%Q. lra. }
      lia. }
    destruct (Qceiling seconds) as [|p|p] eqn:Ec; try lia.
    rewrite str_of_int_neg. rewrite <- app_assoc. reflexivity.
Qed.

(** X2 at -90.5 seconds: no minutes, truncation toward zero. *)
Lemma format_duration_negative_witness :
  format_duration (-181 # 2) = u "-90s".
Proof.
  destruct (format_duration_negative (-181 # 2)) as (_ & _ & H).
  - unfold Qlt; simpl; lia.
  - rewrite H.
    + vm_compute; reflexivity.
    + unfold Qle; simpl; lia.
Defined.

Lemma uint_digits (d : Decimal.uint) :
  Forall is_digit (u (NilEmpty.string_of_uint d)).
Proof.
  induction d; cbn [NilEmpty.string_of_uint].
  - constructor.
  - rewrite u_cons_ascii by (vm_compute; reflexivity).
    constructor; [unfold is_digit; cbn; lia | exact IHd].
  - rewrite u_cons_ascii by (vm_compute; reflexivity).
    constructor; [unfold is_digit; cbn; lia | exact IHd].
  - rewrite u_cons_ascii by (vm_compute; reflexivity).
    constructor; [unfold is_digit; cbn; lia | exact IHd].
  - rewrite u_cons_ascii by (vm_compute; reflexivity).
    constructor; [unfold is_digit; cbn; lia | exact IHd].
  - rewrite u_cons_ascii by (vm_compute; reflexivity).
    constructor; [unfold is_digit; cbn; lia | exact IHd].
  - rewrite u_cons_ascii by (vm_compute; reflexivity).
    constructor; [unfold is_digit; cbn; lia | exact IHd].
  - rewrite u_cons_ascii by (vm_compute; reflexivity).
    constructor; [unfold is_digit; cbn; lia | exact IHd].
  - rewrite u_cons_ascii by (vm_compute; reflexivity).
    constructor; [unfold is_digit; cbn; lia | exact IHd].
  - rewrite u_cons_ascii by (vm_compute; reflexivity).
    constructor; [unfold is_digit; cbn; lia | exact IHd].
  - rewrite u_cons_ascii by (vm_compute; reflexivity).
    constructor; [unfold is_digit; cbn; lia | exact IHd].
Qed.

Lemma str_of_int_digits (n : Z) : 0 <= n -> Forall is_digit (str_of_int n).
Proof.
  intros H. unfold str_of_int. destruct n as [|p|p]; try lia.
  - cbn. constructor; [unfold is_digit; lia | constructor].
  - cbn [Z.to_int NilZero.string_of_int NilZero.string_of_uint].
    unfold NilZero.string_of_uint.
    destruct (Pos.to_uint p); try exact (uint_digits _).
    cbn. constructor; [unfold is_digit; lia | constructor].
Qed.

Lemma str_of_int_nonempty (n : Z) : str_of_int n <> [].
Proof.
  unfold str_of_int. destruct n as [|p|p].
  - cbn. discriminate.
  - cbn [Z.to_int NilZero.string_of_int NilZero.string_of_uint].
    destruct (Pos.to_uint p); try (cbn; discriminate);
      cbn [NilEmpty.string_of_uint];
      rewrite u_cons_ascii by (vm_compute; reflexivity); discriminate.
  - cbn [Z.to_int NilZero.string_of_int].
    rewrite u_cons_ascii by (vm_compute; reflexivity); discriminate.
Qed.

Lemma Forall_digit_or_unit (s : pystr) :
  Forall is_digit s -> Forall (fun c => is_digit c \/ is_unit c) s.
Proof. intros H. eapply Forall_impl; [|exact H]. intros c Hc. left. exact Hc. Qed.

Lemma Qfloor_nonneg (x : Q) : (0 <= x)%Q -> 0 <= Qfloor x.
Proof.
  intros H. change 0 with (Qfloor (inject_Z 0)) at 1. apply Qfloor_resp_le.
  exact H.
Qed.

(** X3: on a non-negative number of seconds the output of
    [format_duration] is made of decimal digits and the unit letters
    [h], [m], [s] only: no sign, no fraction, no blank. *)
Theorem format_duration_alphabet (seconds : Q) :
  (0 <= seconds)%Q ->
  Forall (fun c => is_digit c \/ is_unit c) (format_duration seconds).
Proof.
  intros Hpos. unfold format_duration.
  change 60%Q with (inject_Z 60). change 3600%Q with (inject_Z 3600).
  pose proof (Qfloor_nonneg seconds Hpos) as Hn.
  assert (Us : Forall (fun c => is_digit c \/ is_unit c) (u "s"))
    by (constructor; [right; unfold is_unit; cbn; auto | constructor]).
  assert (Um : Forall (fun c => is_digit c \/ is_unit c) (u "m"))
    by (constructor; [right; unfold is_unit; cbn; auto | constructor]).
  assert (Uh : Forall (fun c => is_digit c \/ is_unit c) (u "h"))
    by (constructor; [right; unfold is_unit; cbn; auto | constructor]).
  destruct (PyNum.ltb seconds (inject_Z 60)).
  - apply Forall_app. split; [|exact Us].
    apply Forall_digit_or_unit, str_of_int_digits.
    rewrite py_int_floor by exact Hpos. exact Hn.
  - destruct (PyNum.ltb seconds (inject_Z 3600)).
    + rewrite floordiv_int, pymod_int by exact Hpos.
      repeat (apply Forall_app; split); try assumption;
        apply Forall_digit_or_unit, str_of_int_digits.
      * apply Z.div_pos; lia.
      * apply Z.mod_pos_bound; lia.
    + rewrite !floordiv_int. rewrite pymod_floor.
      repeat (apply Forall_app; split); try assumption;
        apply Forall_digit_or_unit, str_of_int_digits.
      * apply Z.div_pos; lia.
      * apply Z.div_pos; [apply Z.mod_pos_bound|]; lia.
Qed.

(** X3 at 3725 seconds. *)
Lemma format_duration_alphabet_witness :
  Forall (fun c => is_digit c \/ is_unit c) (format_duration 3725).
Proof.
  apply (format_duration_alphabet 3725). unfold Qle; simpl; lia.
Defined.

(** ** [render_job_bar] on arbitrary inputs *)

(** X4: whatever the durations and the scale, a bar is a run of queued
    glyphs, then a run of running glyphs, then a run of spaces, and it is
    never shorter than [width]: the renderer pads, it does not cut. *)
Theorem render_job_bar_layout (queue_secs run_secs max_secs : Q) (width : Z) :
  (exists n1 n2 n3 : nat,
     render_job_bar queue_secs run_secs max_secs width
     = List.repeat 9617%N n1 ++ List.repeat 9608%N n2 ++ List.repeat 32%N n3)
  /\ width <= len (render_job_bar queue_secs run_secs max_secs width).
Proof.
  unfold render_job_bar.
  change (u " ") with [32%N]. change (u "░") with [9617%N].
  change (u "█") with [9608%N].
  destruct (PyNum.eqb max_secs 0).
  - split.
    + exists 0%nat, 0%nat, (Z.to_nat width). rewrite str_mul_char. reflexivity.
    + rewrite len_str_mul_char. lia.
  - split.
    + unfold ljust. change (u " ") with [32%N]. rewrite !str_mul_char.
      rewrite <- List.app_assoc. do 3 eexists. reflexivity.
    + rewrite len_ljust. lia.
Qed.

(** ** [render_sparkline]: degenerate widths, alphabet, order of the jobs *)

Lemma render_sparkline_width0 (jobs : list Job.t) (j0 : Job.t) (js : list Job.t) :
  List.filter both_times jobs = j0 :: js ->
  latest j0 js - earliest j0 js <> 0 ->
  render_sparkline jobs 0 = Raise ZeroDivisionError.
Proof.
  intros Hf Hspan. unfold render_sparkline.
  destruct jobs as [|a l]; [discriminate Hf|].
  rewrite Hf. fold (earliest j0 js). fold (latest j0 js).
  rewrite total_seconds_zero.
  destruct (Z.eqb_spec (latest j0 js - earliest j0 js) 0) as [E|_];
    [contradiction|].
  reflexivity.
Qed.

(** X5: the sparkline at the widths the callers never use.  A negative
    width gives the empty string.  Width 0 raises [ZeroDivisionError] as
    soon as some job has both timestamps and the span of those jobs is not
    zero; with no such job, or a zero span, width 0 gives the empty
    string. *)
Theorem render_sparkline_degenerate_width (jobs : list Job.t) :
  (forall width, width < 0 -> render_sparkline jobs width = Ok []) /\
  (forall j0 js, List.filter both_times jobs = j0 :: js ->
     latest j0 js - earliest j0 js <> 0 ->
     render_sparkline jobs 0 = Raise ZeroDivisionError) /\
  (List.filter both_times jobs = [] -> render_sparkline jobs 0 = Ok []) /\
  (forall j0 js, List.filter both_times jobs = j0 :: js ->
     latest j0 js - earliest j0 js = 0 -> render_sparkline jobs 0 = Ok []).
Proof.
  split; [|split; [|split]].
  - intros width Hw. unfold render_sparkline.
    assert (B : forall c : N, str_mul [c] width = []).
    { intros c. rewrite str_mul_char.
      replace (Z.to_nat width) with 0%nat by lia. reflexivity. }
    change (u " ") with [32%N]. change (u "█") with [9608%N].
    destruct jobs as [|a l]; [now rewrite B|].
    destruct (List.filter both_times (a :: l)) as [|j0 js]; [now rewrite B|].
    destruct (PyNum.eqb _ 0); [now rewrite B|].
    destruct (Z.eqb_spec width 0) as [E|_]; [lia|].
    unfold range. replace (Z.to_nat width) with 0%nat by lia. reflexivity.
  - intros j0 js Hf Hspan. exact (render_sparkline_width0 jobs j0 js Hf Hspan).
  - intros Hf. unfold render_sparkline.
    destruct jobs as [|a l]; [reflexivity|]. rewrite Hf. reflexivity.
  - intros j0 js Hf Hspan. unfold render_sparkline.
    destruct jobs as [|a l]; [discriminate Hf|].
    rewrite Hf. fold (earliest j0 js). fold (latest j0 js).
    rewrite total_seconds_zero, Hspan. reflexivity.
Qed.

(** X5 on two overlapping jobs: width 0 raises, width -3 gives the empty
    string. *)
Lemma render_sparkline_degenerate_width_witness :
  render_sparkline spark_jobs 0 = Raise ZeroDivisionError
  /\ render_sparkline spark_jobs (-3) = Ok [].
Proof.
  destruct (render_sparkline_degenerate_width spark_jobs) as (H1 & H2 & _).
  split.
  - apply (H2 (scenario_job "a" 10 40) [scenario_job "b" 20 80]).
    + reflexivity.
    + vm_compute. discriminate.
  - apply H1. lia.
Defined.

Lemma density_glyph_In (count total : Z) :
  List.In (density_glyph count total) SPARK_BLOCKS.
Proof.
  unfold density_glyph. destruct (count =? 0).
  - left. reflexivity.
  - apply List.nth_In. unfold clamp.
    change (List.length SPARK_BLOCKS) with 9%nat. lia.
Qed.

Lemma repeat_Forall {A} (P : A -> Prop) (c : A) (n : nat) :
  P c -> Forall P (List.repeat c n).
Proof. intros H. induction n; simpl; constructor; assumption. Qed.

(** X6: every character of a sparkline is one of the nine glyphs of
    [SPARK_BLOCKS]: the level computed for a bucket never indexes outside
    the table. *)
Theorem render_sparkline_alphabet (jobs : list Job.t) (width : Z) (s : pystr) :
  render_sparkline jobs width = Ok s ->
  Forall (fun c => List.In c SPARK_BLOCKS) s.
Proof.
  assert (B : forall (c : N) (t : pystr), List.In c SPARK_BLOCKS ->
            Ok (str_mul [c] width) = Ok t ->
            Forall (fun c => List.In c SPARK_BLOCKS) t).
  { intros c t Hc H. injection H as <-. rewrite str_mul_char.
    apply repeat_Forall. exact Hc. }
  destruct (List.filter both_times jobs) as [|j0 js] eqn:Hf.
  - unfold render_sparkline. destruct jobs as [|a l].
    + apply B. left. reflexivity.
    + rewrite Hf. apply B. left. reflexivity.
  - destruct (Z.eq_dec (latest j0 js - earliest j0 js) 0) as [E|E].
    + unfold render_sparkline. destruct jobs as [|a l]; [discriminate Hf|].
      rewrite Hf. fold (earliest j0 js). fold (latest j0 js).
      rewrite total_seconds_zero, E. apply B. vm_compute. tauto.
    + destruct (Z.eq_dec width 0) as [W|W].
      * subst width.
        rewrite (render_sparkline_width0 jobs j0 js Hf E). discriminate.
      * rewrite (render_sparkline_general jobs width j0 js Hf E W).
        intros H. injection H as <-.
        apply Forall_forall. intros c Hc. apply List.in_map_iff in Hc.
        destruct Hc as (i & <- & _). apply density_glyph_In.
Qed.

(** X6 on the sparkline of two overlapping jobs. *)
Lemma render_sparkline_alphabet_witness :
  Forall (fun c => List.In c SPARK_BLOCKS) (u " ▄███▄▄▄▄▄").
Proof.
  apply (render_sparkline_alphabet spark_jobs 10). vm_compute. reflexivity.
Defined.

(** [min] and [max] as bounds. *)
Lemma min_of_acc (xs : list Z) (x : Z) :
  List.fold_left Z.min xs x <= x
  /\ (forall y, List.In y xs -> List.fold_left Z.min xs x <= y)
  /\ List.In (List.fold_left Z.min xs x) (x :: xs).
Proof.
  revert x. induction xs as [|a xs IH]; intros x; simpl.
  - split; [lia|]. split; [intros y []|]. now left.
  - destruct (IH (Z.min x a)) as (H1 & H2 & H3). split; [lia|]. split.
    + intros y [<-|Hy]; [lia|]. apply H2, Hy.
    + destruct H3 as [H3|H3]; [|right; right; exact H3].
      rewrite <- H3. destruct (Z.min_spec x a) as [[_ ->]|[_ ->]]; auto.
Qed.

Lemma max_of_acc (xs : list Z) (x : Z) :
  x <= List.fold_left Z.max xs x
  /\ (forall y, List.In y xs -> y <= List.fold_left Z.max xs x)
  /\ List.In (List.fold_left Z.max xs x) (x :: xs).
Proof.
  revert x. induction xs as [|a xs IH]; intros x; simpl.
  - split; [lia|]. split; [intros y []|]. now left.
  - destruct (IH (Z.max x a)) as (H1 & H2 & H3). split; [lia|]. split.
    + intros y [<-|Hy]; [lia|]. apply H2, Hy.
    + destruct H3 as [H3|H3]; [|right; right; exact H3].
      rewrite <- H3. destruct (Z.max_spec x a) as [[_ ->]|[_ ->]]; auto.
Qed.

Lemma min_of_le (x : Z) (xs : list Z) (y : Z) :
  List.In y (x :: xs) -> min_of x xs <= y.
Proof.
  unfold min_of. destruct (min_of_acc xs x) as (H1 & H2 & _).
  intros [<-|H]; [exact H1 | apply H2, H].
Qed.

Lemma max_of_ge (x : Z) (xs : list Z) (y : Z) :
  List.In y (x :: xs) -> y <= max_of x xs.
Proof.
  unfold max_of. destruct (max_of_acc xs x) as (H1 & H2 & _).
  intros [<-|H]; [exact H1 | apply H2, H].
Qed.

Lemma min_of_In (x : Z) (xs : list Z) : List.In (min_of x xs) (x :: xs).
Proof. unfold min_of. apply min_of_acc. Qed.

Lemma max_of_In (x : Z) (xs : list Z) : List.In (max_of x xs) (x :: xs).
Proof. unfold max_of. apply max_of_acc. Qed.

Lemma min_of_perm (x y : Z) (xs ys : list Z) :
  Permutation (x :: xs) (y :: ys) -> min_of x xs = min_of y ys.
Proof.
  intros P.
  assert (A : min_of x xs <= min_of y ys).
  { apply min_of_le. apply (Permutation_in _ (Permutation_sym P)), min_of_In. }
  assert (B : min_of y ys <= min_of x xs).
  { apply min_of_le. apply (Permutation_in _ P), min_of_In. }
  lia.
Qed.

Lemma max_of_perm (x y : Z) (xs ys : list Z) :
  Permutation (x :: xs) (y :: ys) -> max_of x xs = max_of y ys.
Proof.
  intros P.
  assert (A : max_of y ys <= max_of x xs).
  { apply max_of_ge. apply (Permutation_in _ (Permutation_sym P)), max_of_In. }
  assert (B : max_of x xs <= max_of y ys).
  { apply max_of_ge. apply (Permutation_in _ P), max_of_In. }
  lia.
Qed.

Lemma filter_perm {A} (f : A -> bool) (l l' : list A) :
  Permutation l l' -> Permutation (List.filter f l) (List.filter f l').
Proof.
  induction 1; simpl.
  - constructor.
  - destruct (f x); [constructor|]; assumption.
  - destruct (f x), (f y); try reflexivity. constructor.
  - etransitivity; eassumption.
Qed.

Lemma earliest_perm (j0 k0 : Job.t) (js ks : list Job.t) :
  Permutation (j0 :: js) (k0 :: ks) -> earliest j0 js = earliest k0 ks.
Proof.
  intros P. unfold earliest. apply min_of_perm.
  apply (Permutation_map Job.created_at) in P. exact P.
Qed.

Lemma latest_perm (j0 k0 : Job.t) (js ks : list Job.t) :
  Permutation (j0 :: js) (k0 :: ks) -> latest j0 js = latest k0 ks.
Proof.
  intros P. unfold latest. apply max_of_perm.
  apply (Permutation_map (fun j => the (Job.completed_at j))) in P. exact P.
Qed.

Lemma overlap_count_perm (l l' : list Job.t) (bs be : Q) :
  Permutation l l' -> overlap_count l bs be = overlap_count l' bs be.
Proof.
  intros P. unfold overlap_count, len_list.
  rewrite (Permutation_length (filter_perm (overlaps bs be) l l' P)).
  reflexivity.
Qed.

(** X7: the sparkline does not depend on the order of the jobs: any
    rearrangement of the list, such as the sort by duration that
    [render_single_run] applies first, gives the same outcome. *)
Theorem render_sparkline_order (jobs jobs' : list Job.t) (width : Z) :
  Permutation jobs jobs' ->
  render_sparkline jobs width = render_sparkline jobs' width.
Proof.
  intros P.
  pose proof (filter_perm both_times jobs jobs' P) as PF.
  destruct (List.filter both_times jobs) as [|j0 js] eqn:Hf;
    destruct (List.filter both_times jobs') as [|k0 ks] eqn:Hf'.
  - unfold render_sparkline. rewrite Hf, Hf'.
    destruct jobs, jobs'; reflexivity.
  - apply Permutation_nil in PF. discriminate PF.
  - apply Permutation_sym, Permutation_nil in PF. discriminate PF.
  - pose proof (earliest_perm _ _ _ _ PF) as Emin.
    pose proof (latest_perm _ _ _ _ PF) as Emax.
    destruct (Z.eq_dec (latest j0 js - earliest j0 js) 0) as [E|E].
    + unfold render_sparkline.
      destruct jobs as [|a l]; [discriminate Hf|].
      destruct jobs' as [|a' l']; [discriminate Hf'|].
      rewrite Hf, Hf'.
      fold (earliest j0 js). fold (latest j0 js).
      fold (earliest k0 ks). fold (latest k0 ks).
      rewrite !total_seconds_zero. rewrite <- Emin, <- Emax, E. reflexivity.
    + destruct (Z.eq_dec width 0) as [W|W].
      * subst width.
        rewrite (render_sparkline_width0 jobs j0 js Hf E).
        rewrite (render_sparkline_width0 jobs' k0 ks Hf'); [reflexivity|].
        rewrite <- Emin, <- Emax. exact E.
      * rewrite (render_sparkline_general jobs width j0 js Hf E W).
        rewrite (render_sparkline_general jobs' width k0 ks Hf').
        2: { rewrite <- Emin, <- Emax. exact E. }
        2: exact W.
        rewrite <- Emin, <- Emax. f_equal. apply List.map_ext. intros i.
        rewrite (overlap_count_perm _ _ _ _ PF).
        unfold len_list. rewrite (Permutation_length PF). reflexivity.
Qed.

(** X7 on two overlapping jobs and their swap. *)
Lemma render_sparkline_order_witness :
  render_sparkline spark_jobs 10
  = render_sparkline [scenario_job "b" 20 80; scenario_job "a" 10 40] 10.
Proof.
  apply (render_sparkline_order spark_jobs). apply perm_swap.
Defined.

(** ** [render_single_run] always returns *)

Lemma render_sparkline_ok (jobs : list Job.t) (width : Z) :
  width <> 0 -> exists s, render_sparkline jobs width = Ok s.
Proof.
  intros Hw. unfold render_sparkline.
  destruct jobs as [|a l]; [eexists; reflexivity|].
  destruct (List.filter both_times (a :: l)); [eexists; reflexivity|].
  destruct (PyNum.eqb _ 0); [eexists; reflexivity|].
  destruct (Z.eqb_spec width 0) as [E|_]; [contradiction|].
  eexists; reflexivity.
Qed.

Lemma insert_desc_cons {A} (key : A -> Q) (x : A) (l : list A) :
  exists y l', insert_desc key x l = y :: l'.
Proof.
  destruct l as [|z l]; simpl; [do 2 eexists; reflexivity|].
  destruct (PyNum.ltb (key x) (key z)); do 2 eexists; reflexivity.
Qed.

Lemma sorted_desc_cons {A} (key : A -> Q) (x : A) (l : list A) :
  exists y l', sorted_desc key (x :: l) = y :: l'.
Proof. unfold sorted_desc. simpl. apply insert_desc_cons. Qed.

(** X8: [render_single_run] returns a string for every run and every
    width: neither the [max] over the sorted jobs nor the sparkline of
    width 50 can raise.  A run without jobs gives ["No jobs found"], a run
    none of whose jobs has both timestamps gives
    ["No completed jobs with timing info"]. *)
Theorem render_single_run_returns (run : WorkflowRun.t) (width : Z) :
  (exists s, render_single_run run width = Ok s) /\
  (WorkflowRun.jobs run = [] ->
     render_single_run run width = Ok (u "No jobs found")) /\
  (WorkflowRun.jobs run <> [] ->
     List.filter both_times (WorkflowRun.jobs run) = [] ->
     render_single_run run width = Ok (u "No completed jobs with timing info")).
Proof.
  unfold render_single_run. split; [|split].
  - destruct (WorkflowRun.jobs run) as [|a l]; [eexists; reflexivity|].
    destruct (List.filter both_times (a :: l)) as [|j0 js];
      [eexists; reflexivity|].
    destruct (PyNum.eqb _ 0); [eexists; reflexivity|].
    destruct (sorted_desc_cons Job.total_duration_seconds j0 js)
      as (s0 & ss & ->).
    destruct (render_sparkline_ok (s0 :: ss) 50) as (sp & ->); [lia|].
    eexists. reflexivity.
  - intros ->. reflexivity.
  - intros Hne Hf. destruct (WorkflowRun.jobs run) as [|a l];
      [contradiction|]. rewrite Hf. reflexivity.
Qed.

(** X8 on a run whose only job never started. *)
Lemma render_single_run_returns_witness :
  render_single_run
    (scenario_run 3 [Job.mk (u "lint") (u "queued") None 0 None None]) 120
  = Ok (u "No completed jobs with timing info").
Proof.
  apply (proj2 (proj2 (render_single_run_returns
    (scenario_run 3 [Job.mk (u "lint") (u "queued") None 0 None None]) 120))).
  - discriminate.
  - reflexivity.
Defined.

(** ** The name-to-job mapping of the diff *)

Lemma keys_dict_set (d : dict) (k k' : pystr) (v : Job.t) :
  List.In k' (keys (dict_set d k v)) <-> k' = k \/ List.In k' (keys d).
Proof.
  induction d as [|[k0 v0] d IH]; simpl.
  - intuition.
  - destruct (PyStr.eqb k0 k) eqn:E; simpl.
    + apply str_eqb_eq in E. subst k0. intuition.
    + rewrite IH. intuition.
Qed.

Lemma NoDup_dict_set (d : dict) (k : pystr) (v : Job.t) :
  NoDup (keys d) -> NoDup (keys (dict_set d k v)).
Proof.
  induction d as [|[k0 v0] d IH]; simpl; intros H.
  - constructor; [intros []|constructor].
  - inversion H as [|? ? Hn Hd]; subst.
    destruct (PyStr.eqb k0 k) eqn:E; simpl.
    + constructor; assumption.
    + constructor; [|apply IH, Hd].
      intros Hin. apply keys_dict_set in Hin. destruct Hin as [->|Hin].
      * rewrite str_eqb_refl in E. discriminate.
      * contradiction.
Qed.

Lemma NoDup_fold_dict_set {A} (key : A -> pystr) (val : A -> Job.t)
    (l : list A) (d : dict) :
  NoDup (keys d) ->
  NoDup (keys (List.fold_left (fun d a => dict_set d (key a) (val a)) l d)).
Proof.
  revert d. induction l as [|a l IH]; intros d H; simpl; [exact H|].
  apply IH, NoDup_dict_set, H.
Qed.

Lemma jobs_by_name_value (jobs : list Job.t) (name : pystr) (j : Job.t) :
  dict_get (jobs_by_name jobs) name = Some j ->
  List.In j jobs /\ truthy (Job.completed_at j) = true
  /\ normalize_job_name (Job.name j) = name.
Proof.
  rewrite jobs_by_name_get. intros H. apply List.find_some in H.
  destruct H as [Hin He]. apply List.in_rev, List.filter_In in Hin.
  destruct Hin as [Hin Hc]. apply str_eqb_eq in He. auto.
Qed.

(** X9: the mapping from normalized names to jobs that the diff builds for
    a run has no duplicate key; each of its values is a job of the run that
    has completed and whose normalized name is the key; and every completed
    job of the run has its normalized name among the keys. *)
Theorem jobs_by_name_invariants (jobs : list Job.t) :
  NoDup (keys (jobs_by_name jobs)) /\
  (forall name j, dict_get (jobs_by_name jobs) name = Some j ->
     List.In j jobs /\ Job.completed_at j <> None
     /\ normalize_job_name (Job.name j) = name) /\
  (forall j, List.In j jobs -> Job.completed_at j <> None ->
     List.In (normalize_job_name (Job.name j)) (keys (jobs_by_name jobs))).
Proof.
  split; [|split].
  - unfold jobs_by_name.
    apply (NoDup_fold_dict_set (fun j => normalize_job_name (Job.name j))
             (fun j => j)). constructor.
  - intros name j H. apply jobs_by_name_value in H.
    destruct H as (H1 & H2 & H3). repeat split; try assumption.
    intros E. rewrite E in H2. discriminate.
  - intros j Hin Hc. apply dict_get_In. rewrite jobs_by_name_get.
    intros Hnone.
    assert (Hj : List.In j (List.rev (List.filter
                   (fun j => truthy (Job.completed_at j)) jobs))).
    { apply List.in_rev. rewrite List.rev_involutive.
      apply List.filter_In. split; [exact Hin|].
      destruct (Job.completed_at j); [reflexivity|contradiction]. }
    pose proof (List.find_none _ _ Hnone j Hj) as F. cbv beta in F.
    rewrite str_eqb_refl in F. discriminate F.
Qed.

(** X9 on a run with two jobs of the same normalized name: one key. *)
Lemma jobs_by_name_invariants_witness :
  List.In (scenario_job "matrix / test" 20 40) (WorkflowRun.jobs collide_run1)
  /\ Job.completed_at (scenario_job "matrix / test" 20 40) <> None
  /\ normalize_job_name (Job.name (scenario_job "matrix / test" 20 40))
     = u "test".
Proof.
  apply (proj1 (proj2 (jobs_by_name_invariants (WorkflowRun.jobs collide_run1)))).
  vm_compute. reflexivity.
Defined.

(** ** Wall-clock time *)

Lemma total_seconds_le (a b : Z) :
  a <= b -> (total_seconds a <= total_seconds b)%Q.
Proof. intros H. unfold total_seconds, Qle. simpl. lia. Qed.

(** X10: the wall-clock time of a run, as the summary of the diff computes
    it, is at least the total duration of each of its completed jobs, and
    it is 0 for a run without a completed job. *)
Theorem get_wall_time_covers (run : WorkflowRun.t) :
  (forall j, List.In j (WorkflowRun.jobs run) -> Job.completed_at j <> None ->
     (Job.total_duration_seconds j <= get_wall_time run)%Q) /\
  (completed (WorkflowRun.jobs run) = [] -> get_wall_time run = 0%Q).
Proof.
  unfold get_wall_time, completed. split.
  - intros j Hin Hc.
    assert (Hf : List.In j (List.filter (fun j => truthy (Job.completed_at j))
                              (WorkflowRun.jobs run))).
    { apply List.filter_In. split; [exact Hin|].
      destruct (Job.completed_at j); [reflexivity|contradiction]. }
    destruct (List.filter _ (WorkflowRun.jobs run)) as [|j0 js]; [destruct Hf|].
    unfold Job.total_duration_seconds.
    destruct (Job.completed_at j) as [c|] eqn:Ec; [|contradiction].
    apply total_seconds_le.
    assert (M : c <= max_of (the (Job.completed_at j0))
                       (List.map (fun j => the (Job.completed_at j)) js)).
    { apply max_of_ge.
      change (List.In c (List.map (fun j => the (Job.completed_at j)) (j0 :: js))).
      apply List.in_map_iff. exists j. split; [now rewrite Ec|exact Hf]. }
    assert (m : min_of (Job.created_at j0) (List.map Job.created_at js)
                <= Job.created_at j).
    { apply min_of_le.
      change (List.In (Job.created_at j) (List.map Job.created_at (j0 :: js))).
      apply List.in_map. exact Hf. }
    lia.
  - intros ->. reflexivity.
Qed.

(** X10 on the baseline run of the diff scenario. *)
Lemma get_wall_time_covers_witness :
  (Job.total_duration_seconds (scenario_job "build" 30 120)
   <= get_wall_time baseline)%Q.
Proof.
  apply (proj1 (get_wall_time_covers baseline)).
  - left. reflexivity.
  - discriminate.
Defined.

(** ** The bars of the diff fit their column *)

Lemma Qmax_of_acc (xs : list Q) (x : Q) :
  (x <= List.fold_left (fun m y => if PyNum.ltb m y then y else m) xs x)%Q
  /\ (forall y, List.In y xs ->
        (y <= List.fold_left (fun m y => if PyNum.ltb m y then y else m) xs x)%Q).
Proof.
  revert x. induction xs as [|a xs IH]; intros x; simpl.
  - split; [apply Qle_refl | intros y []].
  - destruct (IH (if PyNum.ltb x a then a else x)) as (H1 & H2).
    assert (Hx : (x <= (if PyNum.ltb x a then a else x))%Q).
    { destruct (PyNum.ltb x a) eqn:E; [|apply Qle_refl].
      apply ltb_spec in E. apply Qlt_le_weak, E. }
    assert (Ha : (a <= (if PyNum.ltb x a then a else x))%Q).
    { destruct (PyNum.ltb x a) eqn:E; [apply Qle_refl|].
      apply ltb_false in E. exact E. }
    split.
    + eapply Qle_trans; eassumption.
    + intros y [<-|Hy]; [eapply Qle_trans; eassumption | apply H2, Hy].
Qed.

Lemma Qmax_of_ge (x : Q) (xs : list Q) (y : Q) :
  List.In y (x :: xs) -> (y <= Qmax_of x xs)%Q.
Proof.
  unfold Qmax_of. destruct (Qmax_of_acc xs x) as (H1 & H2).
  intros [<-|H]; [exact H1 | apply H2, H].
Qed.

Lemma bar_scale_ge (jobs1 jobs2 : dict) (name : pystr) (j : Job.t) :
  dict_get jobs1 name = Some j \/ dict_get jobs2 name = Some j ->
  (Job.total_duration_seconds j <= bar_scale jobs1 jobs2)%Q.
Proof.
  intros H. unfold bar_scale.
  assert (Hin : List.In (Job.total_duration_seconds j)
                  (all_durations jobs1 jobs2 (all_job_names jobs1 jobs2))).
  { unfold all_durations. apply List.in_flat_map. exists name. split.
    - destruct H as [H|H];
        [eapply name_in_all_l | eapply name_in_all_r]; exact H.
    - apply List.in_or_app. destruct H as [H|H]; rewrite H; [left|right];
        left; reflexivity. }
  destruct (all_durations jobs1 jobs2 (all_job_names jobs1 jobs2)) as [|d ds];
    [destruct Hin|].
  apply Qmax_of_ge, Hin.
Qed.

Lemma render_job_bar_fits (queue_secs run_secs max_secs : Q) (width : Z) :
  (0 <= queue_secs)%Q -> (0 <= run_secs)%Q ->
  (queue_secs + run_secs <= max_secs)%Q -> 0 <= width ->
  len (render_job_bar queue_secs run_secs max_secs width) = width.
Proof.
  intros Hq Hr Hm Hw. unfold render_job_bar.
  change (u " ") with [32%N]. change (u "░") with [9617%N].
  change (u "█") with [9608%N].
  destruct (PyNum.eqb max_secs 0) eqn:E.
  - rewrite len_str_mul_char. lia.
  - assert (Hm0 : (0 < max_secs)%Q).
    { destruct (Qlt_le_dec 0 max_secs) as [L|L]; [exact L|].
      assert (max_secs == 0)%Q by lra.
      apply eqb_spec in H. congruence. }
    destruct (scaled_bounds queue_secs (queue_secs + run_secs) max_secs width)
      as (F0 & F1 & F2 & P0 & P1); try lra; try lia.
    rewrite !py_int_floor by assumption.
    rewrite len_ljust, len_app, !len_str_mul_char. lia.
Qed.

Lemma total_seconds_nonneg (d : Z) : 0 <= d -> (0 <= total_seconds d)%Q.
Proof. intros H. unfold total_seconds, Qle. simpl. lia. Qed.

Lemma monotone_durations (j : Job.t) :
  monotone j -> Job.completed_at j <> None ->
  (0 <= Job.queue_duration_seconds j)%Q
  /\ (0 <= Job.run_duration_seconds j)%Q
  /\ (Job.queue_duration_seconds j + Job.run_duration_seconds j
      <= Job.total_duration_seconds j)%Q.
Proof.
  unfold monotone, Job.queue_duration_seconds, Job.run_duration_seconds,
    Job.total_duration_seconds.
  destruct (Job.started_at j) as [s|], (Job.completed_at j) as [c|];
    intros H Hc; try contradiction.
  - destruct H as [H1 H2]. repeat split.
    + apply total_seconds_nonneg. lia.
    + apply total_seconds_nonneg. lia.
    + unfold total_seconds, Qle, Qplus. simpl. lia.
  - repeat split; try apply Qle_refl.
    apply (total_seconds_nonneg (c - Job.created_at j)). lia.
Qed.

(** X11: in the diff, the bar of a job whose timestamps are in order
    (created, then started, then completed) is exactly 16 characters wide,
    whatever the other jobs are: the common scale is at least the total
    duration of every job shown, so no bar overflows its column. *)
Theorem diff_bars_fit (run1 run2 : WorkflowRun.t) (name : pystr) (j : Job.t) :
  let jobs1 := jobs_by_name (WorkflowRun.jobs run1) in
  let jobs2 := jobs_by_name (WorkflowRun.jobs run2) in
  dict_get jobs1 name = Some j \/ dict_get jobs2 name = Some j ->
  monotone j ->
  (Job.total_duration_seconds j <= bar_scale jobs1 jobs2)%Q /\
  len (fst (side (bar_scale jobs1 jobs2) 16 j)) = 16.
Proof.
  intros jobs1 jobs2 Hget Hmono.
  pose proof (bar_scale_ge jobs1 jobs2 name j Hget) as Hscale.
  split; [exact Hscale|].
  assert (Hc : Job.completed_at j <> None).
  { intros E.
    assert (T : truthy (Job.completed_at j) = true).
    { destruct Hget as [H|H]; apply jobs_by_name_value in H; tauto. }
    rewrite E in T. discriminate. }
  destruct (monotone_durations j Hmono Hc) as (Hq & Hr & Hsum).
  unfold side. cbn [fst].
  apply render_job_bar_fits; try assumption; [|lia].
  eapply Qle_trans; eassumption.
Qed.

(** X11 on the shorter job of the diff scenario, scaled by the longer. *)
Lemma diff_bars_fit_witness :
  len (fst (side (bar_scale (jobs_by_name (WorkflowRun.jobs baseline))
                    (jobs_by_name (WorkflowRun.jobs comparison)))
              16 (scenario_job "build" 30 50))) = 16.
Proof.
  apply (diff_bars_fit baseline comparison (u "build")
           (scenario_job "build" 30 50)).
  - right. vm_compute. reflexivity.
  - vm_compute. split; discriminate.
Defined.

(** ** A run compared with itself *)

Lemma fold_left_Qplus_acc (l : list Q) (a : Q) :
  (List.fold_left Qplus l a == a + List.fold_left Qplus l 0)%Q.
Proof.
  revert a. induction l as [|x l IH]; intros a; simpl.
  - ring.
  - rewrite (IH (a + x)%Q), (IH (0 + x)%Q). ring.
Qed.

Lemma sum_zero (l : list Q) :
  Forall (fun d => (d == 0)%Q) l -> (sum l == 0)%Q.
Proof.
  unfold sum. induction 1 as [|x l Hx _ IH]; simpl; [reflexivity|].
  rewrite fold_left_Qplus_acc, IH, Hx. ring.
Qed.

Lemma matched_deltas_self (f : Job.t -> Q) (jobs : dict) (names : list pystr) :
  Forall (fun d => (d == 0)%Q) (matched_deltas f jobs jobs names).
Proof.
  unfold matched_deltas. apply Forall_forall. intros d Hd.
  apply List.in_flat_map in Hd. destruct Hd as (name & _ & Hd).
  destruct (dict_get jobs name) as [j|]; [|destruct Hd].
  destruct Hd as [<-|[]]. ring.
Qed.

Lemma unified_diff_ending (run1 run2 : WorkflowRun.t) (width : Z) :
  exists pre : list pystr,
    unified_diff_lines run1 run2 width
    = pre ++
      key_insight (get_wall_time run2 - get_wall_time run1)
        (sum (matched_deltas Job.run_duration_seconds
                (jobs_by_name (WorkflowRun.jobs run1))
                (jobs_by_name (WorkflowRun.jobs run2))
                (all_job_names (jobs_by_name (WorkflowRun.jobs run1))
                   (jobs_by_name (WorkflowRun.jobs run2)))))
        (sum (matched_deltas Job.queue_duration_seconds
                (jobs_by_name (WorkflowRun.jobs run1))
                (jobs_by_name (WorkflowRun.jobs run2))
                (all_job_names (jobs_by_name (WorkflowRun.jobs run1))
                   (jobs_by_name (WorkflowRun.jobs run2)))))
      ++ [ str_mul (u "=") width; []; u "Legend: █ running  ░ queued" ].
Proof.
  unfold unified_diff_lines. cbv zeta.
  match goal with
  | |- context [List.fold_left (diff_step ?a ?b ?m ?bw ?nw) ?ns ?st] =>
      destruct (diff_fold_deltas a b m bw nw ns st) as [E1 E2];
      rewrite E1, E2
  end.
  cbn [total_run_delta total_queue_delta]. unfold sum.
  match goal with
  | |- exists pre, (?x ++ ?c ++ ?k) ++ ?d = _ =>
      exists (x ++ c); exact (app_regroup2 x c k d)
  end.
Qed.

Lemma key_insight_still (w r q : Q) :
  (w == 0)%Q -> (r == 0)%Q -> (q == 0)%Q ->
  key_insight w r q = [u "KEY INSIGHT:"; line_same].
Proof.
  intros Hw Hr Hq. rewrite key_insight_parts.
  unfold build_line, queue_lines, cross_lines.
  assert (A1 : PyNum.ltb r (-60) = false) by (apply ltb_false; lra).
  assert (A2 : PyNum.ltb 60 r = false) by (apply ltb_false; lra).
  assert (A3 : PyNum.ltb 60 q = false) by (apply ltb_false; lra).
  assert (A4 : PyNum.ltb q (-60) = false) by (apply ltb_false; lra).
  assert (A5 : PyNum.ltb r 0 = false) by (apply ltb_false; lra).
  rewrite A1, A2, A3, A4, A5, !andb_false_r. reflexivity.
Qed.

Lemma delta_str_zero (d : Q) : (d == 0)%Q -> delta_str d = u "~same".
Proof.
  intros H. unfold delta_str.
  assert (A : PyNum.ltb (Qabs d) 60 = true).
  { apply ltb_spec. rewrite H. reflexivity. }
  rewrite A. reflexivity.
Qed.

(** X12: a run compared with itself shows no change.  Every job row is a
    matched row with the tag ["~same"], and the key-insight block is the
    title and the line ["Actual build times are roughly the same."], with no
    queue line and no cross-cutting line, followed by the closing rule and
    the legend. *)
Theorem diff_with_itself (run : WorkflowRun.t) (width : Z) :
  let jobs := jobs_by_name (WorkflowRun.jobs run) in
  (exists pre : list pystr,
     unified_diff_lines run run width
     = pre ++ [ u "KEY INSIGHT:"; line_same ]
           ++ [ str_mul (u "=") width; []; u "Legend: █ running  ░ queued" ]) /\
  (forall name j, dict_get jobs name = Some j ->
     diff_rows jobs jobs (bar_scale jobs jobs) 16 28 name
     = [matched_row (bar_scale jobs jobs) name j j]
     /\ delta_str (Job.run_duration_seconds j - Job.run_duration_seconds j)
        = u "~same").
Proof.
  intros jobs. split.
  - destruct (unified_diff_ending run run width) as (pre & E).
    exists pre. rewrite E. f_equal. f_equal.
    apply key_insight_still.
    + ring.
    + apply sum_zero, matched_deltas_self.
    + apply sum_zero, matched_deltas_self.
  - intros name j H. split.
    + unfold diff_rows, diff_step. rewrite H. reflexivity.
    + apply delta_str_zero. ring.
Qed.

(** X12 on the baseline run of the diff scenario. *)
Lemma diff_with_itself_witness :
  diff_rows (jobs_by_name (WorkflowRun.jobs baseline))
    (jobs_by_name (WorkflowRun.jobs baseline))
    (bar_scale (jobs_by_name (WorkflowRun.jobs baseline))
       (jobs_by_name (WorkflowRun.jobs baseline))) 16 28 (u "build")
  = [matched_row (bar_scale (jobs_by_name (WorkflowRun.jobs baseline))
                    (jobs_by_name (WorkflowRun.jobs baseline)))
       (u "build") (scenario_job "build" 30 120) (scenario_job "build" 30 120)].
Proof.
  apply (proj2 (diff_with_itself baseline 140) (u "build")
           (scenario_job "build" 30 120)).
  vm_compute. reflexivity.
Defined.

(** ** [render_history]: one row per run, oldest first *)

Lemma insert_asc_perm {A} (key : A -> Z) (x : A) (l : list A) :
  Permutation (x :: l) (insert_asc key x l).
Proof.
  induction l as [|y l IH]; simpl; [reflexivity|].
  destruct (key y <? key x); [|reflexivity].
  etransitivity; [apply perm_swap|]. constructor. exact IH.
Qed.

Lemma sorted_asc_perm {A} (key : A -> Z) (l : list A) :
  Permutation l (sorted_asc key l).
Proof.
  induction l as [|x l IH]; simpl; [constructor|].
  etransitivity; [|apply insert_asc_perm]. constructor. exact IH.
Qed.

Lemma insert_asc_HdRel {A} (key : A -> Z) (x y : A) (l : list A) :
  key y <= key x -> HdRel (fun a b => key a <= key b) y l ->
  HdRel (fun a b => key a <= key b) y (insert_asc key x l).
Proof.
  intros Hxy H. destruct l as [|z l]; simpl.
  - constructor. exact Hxy.
  - inversion H; subst. destruct (key z <? key x); constructor; assumption.
Qed.

Lemma insert_asc_Sorted {A} (key : A -> Z) (x : A) (l : list A) :
  Sorted (fun a b => key a <= key b) l ->
  Sorted (fun a b => key a <= key b) (insert_asc key x l).
Proof.
  induction 1 as [|y l Hs IH Hd]; simpl.
  - repeat constructor.
  - destruct (Z.ltb_spec (key y) (key x)).
    + constructor; [exact IH|]. apply insert_asc_HdRel; [lia|exact Hd].
    + constructor; [constructor; assumption|]. constructor. exact H.
Qed.

Lemma sorted_asc_Sorted {A} (key : A -> Z) (l : list A) :
  StronglySorted (fun a b => key a <= key b) (sorted_asc key l).
Proof.
  apply Sorted_StronglySorted.
  - intros a b c. lia.
  - induction l as [|x l IH]; simpl; [constructor|].
    apply insert_asc_Sorted, IH.
Qed.

Lemma history_step_row (lines : list pystr) (run : WorkflowRun.t) :
  history_step lines run = Ok (lines ++ history_row run)
  /\ List.length (history_row run) = if has_completed run then 1%nat else 0%nat.
Proof.
  unfold history_row, history_step, has_completed.
  destruct (WorkflowRun.jobs run) as [|a l].
  - cbn. rewrite List.app_nil_r. split; reflexivity.
  - destruct (completed (a :: l)) as [|j0 js].
    + rewrite List.app_nil_r. split; reflexivity.
    + destruct (render_sparkline_ok (j0 :: js) 40) as (sp & ->); [lia|].
      cbn [bind List.app]. split; reflexivity.
Qed.

Lemma history_fold (runs : list WorkflowRun.t) (init : list pystr) :
  List.fold_left (fun acc run => lines <- acc ;; history_step lines run)
    runs (Ok init)
  = Ok (init ++ List.flat_map history_row runs).
Proof.
  revert init. induction runs as [|r runs IH]; intros init; simpl.
  - now rewrite List.app_nil_r.
  - cbn [bind]. rewrite (proj1 (history_step_row init r)).
    rewrite IH. now rewrite <- List.app_assoc.
Qed.

Lemma flat_map_length_filter {A B} (f : A -> list B) (p : A -> bool)
    (l : list A) :
  (forall a, List.length (f a) = if p a then 1%nat else 0%nat) ->
  List.length (List.flat_map f l) = List.length (List.filter p l).
Proof.
  intros H. induction l as [|a l IH]; simpl; [reflexivity|].
  rewrite List.length_app, H, IH. destruct (p a); reflexivity.
Qed.

(** X13: [render_history] returns a string for every list of runs (the
    sparkline of width 40 cannot raise).  Between a heading of six lines and
    a footing of four, it shows the rows of the runs taken in ascending
    order of creation time, one row for each run that has a completed job
    and none for the others: [10 + k] lines for [k] such runs. *)
Theorem render_history_rows (runs : list WorkflowRun.t) (width : Z) :
  let ordered := sorted_asc WorkflowRun.created_at runs in
  exists heading footing : list pystr,
    List.length heading = 6%nat /\ List.length footing = 4%nat /\
    history_lines runs width
    = Ok (heading ++ List.flat_map history_row ordered ++ footing) /\
    render_history runs width
    = Ok (join newline
            (heading ++ List.flat_map history_row ordered ++ footing)) /\
    Permutation runs ordered /\
    StronglySorted
      (fun a b => WorkflowRun.created_at a <= WorkflowRun.created_at b)
      ordered /\
    (forall run, List.length (history_row run)
                 = if has_completed run then 1%nat else 0%nat) /\
    List.length (heading ++ List.flat_map history_row ordered ++ footing)
    = (10 + List.length (List.filter has_completed runs))%nat.
Proof.
  intros ordered.
  assert (E : exists heading footing : list pystr,
             List.length heading = 6%nat /\ List.length footing = 4%nat /\
             history_lines runs width
             = Ok (heading ++ List.flat_map history_row ordered ++ footing)).
  { unfold history_lines. cbv zeta. fold ordered.
    rewrite history_fold. cbn [bind].
    match goal with
    | |- exists heading footing, _ /\ _ /\ Ok ((?h ++ ?r) ++ ?f) = _ =>
        exists h, f; split; [reflexivity|]; split; [reflexivity|];
        f_equal; symmetry; apply List.app_assoc
    end. }
  destruct E as (heading & footing & Hh & Hf & E).
  exists heading, footing.
  split; [exact Hh|]. split; [exact Hf|]. split; [exact E|].
  split; [unfold render_history; rewrite E; reflexivity|].
  split; [apply sorted_asc_perm|].
  split; [apply sorted_asc_Sorted|].
  split; [intros run; apply (history_step_row [])|].
  rewrite !List.length_app, Hh, Hf.
  rewrite (flat_map_length_filter history_row has_completed)
    by (intros run; apply (history_step_row [])).
  rewrite <- (Permutation_length
                (filter_perm has_completed runs ordered
                   (sorted_asc_perm WorkflowRun.created_at runs))).
  lia.
Qed.

(** ** [render_comparison]: grouping by workflow name *)

Lemma group_get_add (g : list (pystr * list WorkflowRun.t))
    (n k : pystr) (r : WorkflowRun.t) :
  group_get (group_add g n r) k
  = if PyStr.eqb n k
    then Some (match group_get g k with Some rs => rs ++ [r] | None => [r] end)
    else group_get g k.
Proof.
  induction g as [|[k0 rs] g IH]; simpl.
  - reflexivity.
  - destruct (PyStr.eqb k0 n) eqn:E; simpl.
    + apply str_eqb_eq in E. subst k0.
      destruct (PyStr.eqb n k); reflexivity.
    + rewrite IH. destruct (PyStr.eqb k0 k) eqn:E'; [|reflexivity].
      apply str_eqb_eq in E'. subst k0. apply str_eqb_neq in E.
      assert (N : PyStr.eqb n k = false) by (apply str_eqb_neq; congruence).
      rewrite N. reflexivity.
Qed.

Lemma group_keys_add (g : list (pystr * list WorkflowRun.t))
    (n k : pystr) (r : WorkflowRun.t) :
  List.In k (List.map fst (group_add g n r))
  <-> k = n \/ List.In k (List.map fst g).
Proof.
  induction g as [|[k0 rs] g IH]; simpl.
  - intuition.
  - destruct (PyStr.eqb k0 n) eqn:E; simpl.
    + apply str_eqb_eq in E. subst k0. intuition.
    + rewrite IH. intuition.
Qed.

Lemma NoDup_group_add (g : list (pystr * list WorkflowRun.t))
    (n : pystr) (r : WorkflowRun.t) :
  NoDup (List.map fst g) -> NoDup (List.map fst (group_add g n r)).
Proof.
  induction g as [|[k0 rs] g IH]; simpl; intros H.
  - constructor; [intros []|constructor].
  - inversion H as [|? ? Hn Hd]; subst.
    destruct (PyStr.eqb k0 n) eqn:E; simpl.
    + constructor; assumption.
    + constructor; [|apply IH, Hd].
      intros Hin. apply group_keys_add in Hin. destruct Hin as [->|Hin].
      * rewrite str_eqb_refl in E. discriminate.
      * contradiction.
Qed.

Lemma by_workflow_snoc (runs : list WorkflowRun.t) (r : WorkflowRun.t) :
  by_workflow (runs ++ [r])
  = group_add (by_workflow runs) (WorkflowRun.name r) r.
Proof. unfold by_workflow. rewrite List.fold_left_app. reflexivity. Qed.

(** X14: [render_comparison] groups the runs by workflow name without
    losing or reordering any: the group of a name is exactly the list of
    the runs of that name in input order, a name that no run has gives no
    group, and no name has two groups. *)
Theorem by_workflow_groups (runs : list WorkflowRun.t) :
  NoDup (List.map fst (by_workflow runs)) /\
  forall name,
    group_get (by_workflow runs) name
    = match List.filter (fun r => PyStr.eqb (WorkflowRun.name r) name) runs with
      | [] => None
      | r :: rs => Some (r :: rs)
      end.
Proof.
  split.
  - induction runs as [|r runs IH] using List.rev_ind; [constructor|].
    rewrite by_workflow_snoc. apply NoDup_group_add, IH.
  - intros name.
    induction runs as [|r runs IH] using List.rev_ind; [reflexivity|].
    rewrite by_workflow_snoc, group_get_add, List.filter_app, IH. simpl.
    destruct (PyStr.eqb (WorkflowRun.name r) name).
    + destruct (List.filter _ runs) as [|x l]; reflexivity.
    + rewrite List.app_nil_r. reflexivity.
Qed.

(** ** [list_runs]: the width of a row *)

Lemma len_slice_to (s : pystr) (n : Z) : 0 <= n -> len (slice_to s n) <= n.
Proof.
  intros H. unfold len, slice_to.
  pose proof (List.firstn_le_length (Z.to_nat n) s).
  rewrite List.length_firstn. lia.
Qed.

Lemma len_replace_char (old new : N) (s : pystr) :
  len (replace_char old new s) = len s.
Proof. unfold len, replace_char. now rewrite List.length_map. Qed.

(** X15: a row of [list_runs] is never shorter than the 87 characters of
    the heading, and it is exactly 87 characters when the run id prints in
    at most 12 characters and the shown status (the conclusion, or the
    status when there is none) has at most 12: the workflow name and the
    creation time are cut to their columns, the id and the status are
    not. *)
Theorem list_row_width (run : RunData.t) :
  87 <= len (list_row run) /\
  (len (str_of_int (RunData.id run)) <= 12 ->
   len (or_str (RunData.conclusion run) (RunData.status run)) <= 12 ->
   len (list_row run) = 87).
Proof.
  unfold list_row. cbv zeta. change (u " ") with [32%N].
  rewrite !len_app, !len_ljust.
  change (len [32%N]) with 1.
  pose proof (len_slice_to (RunData.name run) 38 ltac:(lia)).
  pose proof (len_slice_to (RunData.created_at run) 19 ltac:(lia)).
  pose proof (len_nonneg (slice_to (RunData.name run) 38)).
  rewrite len_replace_char.
  split; [lia|]. intros Hid Hstatus. lia.
Qed.

(** X15 on a run with an overlong workflow name. *)
Lemma list_row_width_witness :
  len (list_row
         (RunData.mk 123456
            (u "CI with a very long workflow name that overflows")
            (u "completed") (Some (u "success")) (u "2024-05-06T07:08:09Z")))
  = 87.
Proof.
  apply (proj2 (list_row_width
    (RunData.mk 123456
       (u "CI with a very long workflow name that overflows")
       (u "completed") (Some (u "success")) (u "2024-05-06T07:08:09Z"))));
    vm_compute; discriminate.
Defined.

(** ** [normalize_job_name]: no path separator, never longer *)

Lemma after_last_no_sep (sep : N) (s : pystr) :
  ~ List.In sep (after_last sep s).
Proof.
  induction s as [|c r IH]; simpl; [intros []|].
  destruct (List.existsb (N.eqb sep) r) eqn:E; [exact IH|].
  assert (Hr : ~ List.In sep r).
  { intros Hin. apply existsb_eqb_In in Hin. congruence. }
  destruct (N.eqb_spec c sep) as [->|Hne]; [exact Hr|].
  intros [H|H]; [congruence|contradiction].
Qed.

Lemma lstrip_In (s : pystr) (c : N) : List.In c (lstrip s) -> List.In c s.
Proof.
  induction s as [|x r IH]; simpl; [intros []|].
  destruct (is_space x); [intros H; right; apply IH, H | intros H; exact H].
Qed.

Lemma strip_In (s : pystr) (c : N) : List.In c (strip s) -> List.In c s.
Proof.
  unfold strip. intros H.
  apply (proj2 (List.in_rev _ _)) in H. apply lstrip_In in H.
  apply (proj2 (List.in_rev _ _)) in H. apply lstrip_In, H.
Qed.

Lemma len_after_last (sep : N) (s : pystr) : len (after_last sep s) <= len s.
Proof.
  unfold len. induction s as [|c r IH]; simpl; [lia|].
  destruct (List.existsb (N.eqb sep) r); [lia|].
  destruct (c =? sep)%N; simpl; lia.
Qed.

Lemma length_lstrip (s : pystr) : (List.length (lstrip s) <= List.length s)%nat.
Proof.
  induction s as [|x r IH]; simpl; [lia|].
  destruct (is_space x); simpl; lia.
Qed.

Lemma len_strip (s : pystr) : len (strip s) <= len s.
Proof.
  unfold len, strip. rewrite List.length_rev.
  pose proof (length_lstrip (List.rev (lstrip s))) as H1.
  rewrite List.length_rev in H1.
  pose proof (length_lstrip s). lia.
Qed.

Lemma length_remove_go (old s : pystr) (k : nat) :
  (List.length (remove_go old s k) <= List.length s)%nat.
Proof.
  revert k. induction s as [|c r IH]; intros k; simpl; [lia|].
  destruct k as [|k].
  - destruct (is_prefix old (c :: r)).
    + specialize (IH (List.length old - 1)%nat). lia.
    + simpl. specialize (IH 0%nat). lia.
  - specialize (IH k). lia.
Qed.

Lemma len_remove (old s : pystr) : len (remove old s) <= len s.
Proof.
  unfold len, remove. destruct old; [lia|].
  pose proof (length_remove_go (n :: old) s 0). lia.
Qed.

Lemma len_fold_remove (olds : list pystr) (s : pystr) :
  len (List.fold_left (fun s old => remove old s) olds s) <= len s.
Proof.
  revert s. induction olds as [|o olds IH]; intros s; simpl; [lia|].
  pose proof (IH (remove o s)). pose proof (len_remove o s). lia.
Qed.

(** X16: a normalized job name contains no ["/"] - only what follows the
    last one is kept - and it is never longer than the name it comes
    from. *)
Theorem normalize_job_name_short (name : pystr) :
  ~ List.In 47%N (normalize_job_name name)
  /\ len (normalize_job_name name) <= len name.
Proof.
  rewrite normalize_unfold. split.
  - intros H. apply fold_remove_In, strip_In in H.
    exact (after_last_no_sep 47%N name H).
  - pose proof (len_fold_remove decorations (strip (after_last 47%N name))).
    pose proof (len_strip (after_last 47%N name)).
    pose proof (len_after_last 47%N name). lia.
Qed.
